(** * git-cycle-time: a model of [bin/index.js]

    The program reads the tags of a Git repository, keeps those that match a
    pattern and are not later than the end date, pairs consecutive releases,
    and reports the mean time between a commit and the release that first
    contains it.  This development embeds the functions of [bin/index.js] and
    proves the properties its specification states about them.

    - JavaScript numbers are IEEE 754 binary64 values: [spec_float] of the
      Standard Library at precision 53, with its rounding written out.
    - Strings are [string]; [split], [substring] and [startsWith] follow the
      ECMAScript definitions for the one-character separators the code uses.
    - [async] functions are sequential computations that may throw and that
      record every shell command they run, in order.
    - [Date.parse], the regular-expression engine and [child_process.exec]
      belong to the host; they are the fields of [Host].
    - [console.log] output is not part of the model. *)

From Stdlib Require Import ZArith List String Ascii Bool Lia SpecFloat Permutation.
Import ListNotations.
Open Scope Z_scope.
Open Scope string_scope.

(* ================================================================== *)
(** ** JavaScript numbers *)

Module Number.

(** binary64: 53 bits of precision, infinities at exponent 1024. *)
Definition prec : Z := 53.
Definition emax : Z := 1024.

Definition number : Type := spec_float.

Definition NaN : number := S754_nan.

(** The number an integer literal or an integer-valued property denotes,
    rounded to nearest-even. *)
Definition ofZ (n : Z) : number := binary_normalize prec emax n 0 false.

Definition valid (x : number) : bool := valid_binary prec emax x.

Definition add : number -> number -> number := SFadd prec emax.
Definition sub : number -> number -> number := SFsub prec emax.
Definition div : number -> number -> number := SFdiv prec emax.

(** [Math.abs] *)
Definition abs : number -> number := SFabs.

(** [x < y], [x > y], [x >= y]: false as soon as an operand is NaN. *)
Definition lt (x y : number) : bool := SFltb x y.
Definition gt (x y : number) : bool := SFltb y x.
Definition ge (x y : number) : bool := SFleb y x.

(** ToBoolean on a number: NaN, +0 and -0 are falsy. *)
Definition truthy (x : number) : bool :=
  match x with
  | S754_nan | S754_zero _ => false
  | _ => true
  end.

Definition isNaN (x : number) : bool :=
  match x with
  | S754_nan => true
  | _ => false
  end.

Definition isInfinite (x : number) : bool :=
  match x with
  | S754_infinity _ => true
  | _ => false
  end.

(** The binary64 representation of an integer [0 < n < 2^53]: a 53-bit
    mantissa and the exponent that goes with it. *)
Definition mant (n : Z) : positive := Z.to_pos (n * 2 ^ (52 - Z.log2 n)).
Definition expo (n : Z) : Z := Z.log2 n - 52.

End Number.

Import Number.

(* ================================================================== *)
(** ** Strings *)

Module JSString.

Definition quote : string := String "034"%char EmptyString.
Definition LF : ascii := "010"%char.
Definition SP : ascii := " "%char.

(** [s.split(sep)] for a separator of one character: the pieces between the
    occurrences of [sep]; never an empty array. *)
Fixpoint split (sep : ascii) (s : string) : list string :=
  match s with
  | EmptyString => [EmptyString]
  | String c s' =>
      if Ascii.eqb c sep then EmptyString :: split sep s'
      else match split sep s' with
           | [] => [String c EmptyString]
           | piece :: pieces => String c piece :: pieces
           end
  end.

(** [s.substring(n)]: what follows the first [n] characters. *)
Fixpoint substring_from (n : nat) (s : string) : string :=
  match n, s with
  | O, _ => s
  | S n', EmptyString => EmptyString
  | S n', String _ s' => substring_from n' s'
  end.

(** [s.startsWith(p)] *)
Definition startsWith (p s : string) : bool := String.prefix p s.

(** A value that may be [undefined]. *)
Definition arg : Type := option string.

(** ToString, as a template literal or [Date.parse] applies it. *)
Definition ToString (a : arg) : string :=
  match a with
  | Some s => s
  | None => "undefined"
  end.

(** ToBoolean on a string or [undefined]: [undefined] and the empty string
    are falsy. *)
Definition truthy_arg (a : arg) : bool :=
  match a with
  | None => false
  | Some s => negb (Nat.eqb (String.length s) 0)
  end.

Fixpoint contains_char (c : ascii) (s : string) : bool :=
  match s with
  | EmptyString => false
  | String c' s' => Ascii.eqb c' c || contains_char c s'
  end.

End JSString.

Import JSString.

(* ================================================================== *)
(** ** Effects: exceptions and the shell commands run *)

Inductive exn : Type :=
| Thrown (message : string)      (* [throw "..."] *)
| ExecError (command : string)   (* the promise of [exec] rejected *)
| SyntaxError (pattern : arg)    (* the pattern is not a regular expression *)
| TypeError.                     (* a property of [undefined] was read *)

(** A computation returns the commands it handed to [exec], oldest first, and
    either the exception that ended it or its value. *)
Definition M (A : Type) : Type := list string * (exn + A).

Definition ret {A} (a : A) : M A := ([], inr a).

Definition throw {A} (e : exn) : M A := ([], inl e).

Definition bind {A B} (m : M A) (k : A -> M B) : M B :=
  match m with
  | (t, inl e) => (t, inl e)
  | (t, inr a) => let (t', r) := k a in ((t ++ t')%list, r)
  end.

Notation "x <- m ;; k" := (bind m (fun x => k))
  (at level 61, m at next level, right associativity).

Definition commands {A} (m : M A) : list string := fst m.
Definition outcome {A} (m : M A) : exn + A := snd m.

(* ================================================================== *)
(** ** The host *)

Record Host : Type := {
  (** [Date.parse]: a time value in milliseconds, or NaN. *)
  Date_parse : string -> number;
  (** The regular expression a pattern denotes, as the predicate "some part
      of the string matches"; [None] when the pattern does not compile. *)
  RegExp_create : arg -> option (string -> bool);
  (** [exec] of a command line: its standard output, or [None] when the
      command fails. *)
  exec : string -> option string
}.

(* ================================================================== *)
(** ** The program *)

Record TagRecord : Type := { tag : string; date : number }.

Record CycleTimeResult : Type := {
  cycleTime : number;
  numberOfReleases : nat
}.

(** [zip]: as many rows as the longer array has, a missing element being
    [undefined]. *)
Definition zip {A B} (a : list A) (b : list B) : list (option A * option B) :=
  map (fun i => (nth_error a i, nth_error b i))
      (seq 0 (Nat.max (List.length b) (List.length a))).

(** [a.slice(1)] *)
Definition slice1 {A} (a : list A) : list A := skipn 1 a.

(** [mean]: the elements are added from the left, starting from the first. *)
Definition mean (data : list number) : number :=
  match data with
  | [] => NaN
  | first :: rest =>
      div (fold_left add rest first) (ofZ (Z.of_nat (List.length data)))
  end.

(** The test of the release loop, line 94: the pair goes on to the duration
    extraction unless its later release is missing or dated before
    [startDate]. *)
Definition inPeriod (startDate : number)
    (release : option TagRecord * option TagRecord) : bool :=
  match snd release with
  | None => false
  | Some currentRelease => negb (lt (date currentRelease) startDate)
  end.

(** The commit a line of [git cherry] names: [cherryCommit.split(" ")[1]]. *)
Definition cherrySha (cherryCommit : string) : arg :=
  nth_error (split SP cherryCommit) 1.

(** The test of the tag loop, lines 76 to 82, on a parsed record. *)
Definition keptBy (endDate : number) (test : string -> bool) (r : TagRecord) : bool :=
  negb (gt (date r) endDate) && test (tag r).

Section Program.

Variable host : Host.

Definition parseTagLine (tagLine : string) : option TagRecord :=
  if Nat.eqb (String.length tagLine) 0 then None
  else
    let tag := hd EmptyString (split SP tagLine) in
    let date := Date_parse host (substring_from (String.length tag) tagLine) in
    Some {| tag := tag; date := date |}.

Definition runShellCommand (path command : string) : M string :=
  let line := "cd " ++ path ++ " && " ++ command in
  ([line],
   match exec host line with
   | Some stdout => inr stdout
   | None => inl (ExecError line)
   end).

Definition getCommitTime (path : string) (sha : arg) : M number :=
  stdout <- runShellCommand path
              ("git log -n 1 --format=format:%cI " ++ ToString sha) ;;
  ret (Date_parse host stdout).

Definition getCherryForRelease (path upstream head : string) : M string :=
  runShellCommand path ("git cherry " ++ upstream ++ " " ++ head).

(** The loop of [getDurationsForRelease] over the lines of the diff. *)
Fixpoint commitTimes (path : string) (cherryCommits : list string)
    (commitDates : list number) : M (list number) :=
  match cherryCommits with
  | [] => ret commitDates
  | cherryCommit :: rest =>
      if startsWith "+" cherryCommit then
        time <- getCommitTime path (cherrySha cherryCommit) ;;
        commitTimes path rest (commitDates ++ [time])%list
      else commitTimes path rest commitDates
  end.

Definition getDurationsForRelease (path upstream head : string)
    (releaseDate : number) : M (list number) :=
  commitsDiff <- getCherryForRelease path upstream head ;;
  commitDates <- commitTimes path (split LF commitsDiff) [] ;;
  ret (map (fun date => abs (sub releaseDate date)) commitDates).

(** [tag.match(regexp)] as a condition. *)
Definition String_match (tag : string) (regexp : arg) : M bool :=
  match RegExp_create host regexp with
  | Some test => ret (test tag)
  | None => throw (SyntaxError regexp)
  end.

(** The first loop of [calculateCycleTime]: the release selector. *)
Fixpoint selectReleases (endDate : number) (regexp : arg)
    (tagLines : list string) (releaseCommits : list TagRecord)
    : M (list TagRecord) :=
  match tagLines with
  | [] => ret releaseCommits
  | tagLine :: rest =>
      match parseTagLine tagLine with
      | None => selectReleases endDate regexp rest releaseCommits
      | Some tagByDate =>
          if gt (date tagByDate) endDate then
            selectReleases endDate regexp rest releaseCommits
          else
            matched <- String_match (tag tagByDate) regexp ;;
            if matched then
              selectReleases endDate regexp rest
                (releaseCommits ++ [tagByDate])%list
            else selectReleases endDate regexp rest releaseCommits
      end
  end.

(** The second loop of [calculateCycleTime]: window filter and extraction. *)
Fixpoint releaseLoop (path : string) (startDate : number)
    (zippedReleases : list (option TagRecord * option TagRecord))
    (durationsData : list number) (numberOfReleasesInPeriod : nat)
    : M (list number * nat) :=
  match zippedReleases with
  | [] => ret (durationsData, numberOfReleasesInPeriod)
  | release :: rest =>
      if negb (inPeriod startDate release) then
        releaseLoop path startDate rest durationsData numberOfReleasesInPeriod
      else
        match release with
        | (Some oldRelease, Some currentRelease) =>
            durations <- getDurationsForRelease path (tag oldRelease)
                           (tag currentRelease) (date currentRelease) ;;
            releaseLoop path startDate rest (durationsData ++ durations)%list
              (S numberOfReleasesInPeriod)
        | _ => throw TypeError
        end
  end.

Definition hours (ms : number) : number :=
  div (div (div ms (ofZ 1000)) (ofZ 60)) (ofZ 60).

Definition calculateCycleTime (path tagsData : string)
    (startDate endDate : number) (regexp : arg) : M CycleTimeResult :=
  let tagLines := split LF tagsData in
  releaseCommits <- selectReleases endDate regexp tagLines [] ;;
  let upper := slice1 releaseCommits in
  let zippedReleases := zip releaseCommits upper in
  totals <- releaseLoop path startDate zippedReleases [] 0 ;;
  let cycleTime := hours (mean (fst totals)) in
  ret {| cycleTime := cycleTime; numberOfReleases := snd totals |}.

Definition listTagsCommand (isLightweight : bool) : string :=
  let refOption := if isLightweight then "creatordate" else "taggerdate" in
  "git for-each-ref --format=" ++ quote ++ "%(refname:short) %(" ++ refOption
    ++ ")" ++ quote ++ " --sort=" ++ quote ++ refOption ++ quote ++ " refs/tags".

(** [execute]; its value is the result the summary line is printed from. *)
Definition execute (startDateString endDateString regexp : arg)
    (isLightweight : bool) (path : arg) : M CycleTimeResult :=
  if negb (truthy_arg path) then
    throw (Thrown "No path to the Git repository provided")
  else
    let startDate := Date_parse host (ToString startDateString) in
    let endDate := Date_parse host (ToString endDateString) in
    if negb (truthy startDate) then
      throw (Thrown "Couldn't parse start-date argument")
    else
      releaseTags <- runShellCommand (ToString path)
                       (listTagsCommand isLightweight) ;;
      if negb (truthy_arg endDateString) then
        throw (Thrown "Couldn't parse end-date argument")
      else
        calculateCycleTime (ToString path) releaseTags startDate endDate regexp.

End Program.

(* ================================================================== *)
(** ** Vocabulary of the specification *)

(** The records of the lines that have one, in the order of the lines. *)
Definition parsedRecords (host : Host) (tagLines : list string) : list TagRecord :=
  flat_map (fun tagLine => match parseTagLine host tagLine with
                           | Some r => [r]
                           | None => []
                           end) tagLines.

(** What the pattern accepts; nothing when it does not compile. *)
Definition matcher (host : Host) (regexp : arg) : string -> bool :=
  match RegExp_create host regexp with
  | Some test => test
  | None => fun _ => false
  end.

(** The release pairer: [zip] of the selected releases and their tail. *)
Definition releasePairs (releases : list TagRecord)
    : list (option TagRecord * option TagRecord) :=
  zip releases (slice1 releases).

(** The duration extraction of a pair, as the release loop calls it. *)
Definition extraction (host : Host) (path : string)
    (release : option TagRecord * option TagRecord) : M (list number) :=
  match release with
  | (Some oldRelease, Some currentRelease) =>
      getDurationsForRelease host path (tag oldRelease) (tag currentRelease)
        (date currentRelease)
  | _ => throw TypeError
  end.

(** The computation does not end by a thrown string. *)
Definition notThrown {A} (m : M A) : Prop :=
  forall message, outcome m <> inl (Thrown message).

(** The command lines handed to [exec]. *)
Definition cherryCommand (path upstream head : string) : string :=
  "cd " ++ path ++ " && " ++ "git cherry " ++ upstream ++ " " ++ head.

Definition logCommand (path : string) (sha : arg) : string :=
  "cd " ++ path ++ " && " ++ "git log -n 1 --format=format:%cI " ++ ToString sha.

Definition listCommand (path : arg) (isLightweight : bool) : string :=
  "cd " ++ ToString path ++ " && " ++ listTagsCommand isLightweight.

(** The lines of a diff the extractor keeps. *)
Definition keptLines (commitsDiff : string) : list string :=
  filter (startsWith "+") (split LF commitsDiff).

(** A command answered. *)
Definition answered (host : Host) (command : string) : Prop :=
  exec host command <> None.

(** The run stopped at the first command that failed: when it ends by the
    failure of a command, that command is the last one run and the ones
    before it were answered; otherwise every command run was answered. *)
Definition runsUntilFailure (host : Host) {A} (m : M A) : Prop :=
  match outcome m with
  | inl (ExecError command) =>
      exec host command = None /\
      exists before,
        commands m = (before ++ [command])%list /\
        Forall (answered host) before
  | _ => Forall (answered host) (commands m)
  end.

(** The computation ends, if by an exception, by one that satisfies [P]. *)
Definition failsWith {A} (P : exn -> Prop) (m : M A) : Prop :=
  forall e, outcome m = inl e -> P e.

(** The exception is the failure of a command. *)
Definition isExecError (e : exn) : Prop :=
  exists command, e = ExecError command.

(** The lines that are not empty. *)
Definition nonEmptyLines (tagLines : list string) : list string :=
  filter (fun tagLine => negb (Nat.eqb (String.length tagLine) 0)) tagLines.

(** The specification's reading of a line of the diff: its tokens are the
    maximal runs of characters that are not white space (space, tab, line
    feed, vertical tab, form feed, carriage return), and the commit is the
    second of them. *)
Definition TAB : ascii := "009"%char.

Definition isWhitespace (c : ascii) : bool :=
  let n := nat_of_ascii c in
  ((n =? 32) || (9 <=? n) && (n <=? 13))%nat.

Fixpoint noWhitespace (s : string) : bool :=
  match s with
  | EmptyString => true
  | String c s' => negb (isWhitespace c) && noWhitespace s'
  end.

Fixpoint tokensFrom (s current : string) : list string :=
  match s with
  | EmptyString =>
      match current with
      | EmptyString => []
      | _ => [current]
      end
  | String c s' =>
      if isWhitespace c then
        match current with
        | EmptyString => tokensFrom s' EmptyString
        | _ => current :: tokensFrom s' EmptyString
        end
      else tokensFrom s' (current ++ String c EmptyString)
  end.

Definition whitespaceTokens (line : string) : list string :=
  tokensFrom line EmptyString.

Definition secondToken (line : string) : arg :=
  nth_error (whitespaceTokens line) 1.

(** The sum of a list of integers. *)
Definition total (l : list Z) : Z := fold_right Z.add 0 l.


(* ================================================================== *)
(** ** A reference host for the examples

    [Date_parse_utc] reads the date-time form [YYYY-MM-DDTHH:mm:ssZ] after
    leading blanks and gives NaN for every other string; [RegExp_literal]
    covers the patterns made of letters and digits, which match the strings
    that contain them, and a missing pattern, which matches every string
    (it takes any other pattern as one that does not compile); [exec_table]
    answers the command lines of a table and fails on the others. *)

Module Reference.

Local Open Scope Z_scope.

Definition digit (c : ascii) : option Z :=
  let n := nat_of_ascii c in
  if (48 <=? n)%nat && (n <=? 57)%nat then Some (Z.of_nat (n - 48)) else None.

Fixpoint readDigits (k : nat) (acc : Z) (s : string) : option (Z * string) :=
  match k with
  | O => Some (acc, s)
  | S k' =>
      match s with
      | EmptyString => None
      | String c s' =>
          match digit c with
          | Some d => readDigits k' (10 * acc + d) s'
          | None => None
          end
      end
  end.

Definition readChar (c : ascii) (s : string) : option string :=
  match s with
  | String c' s' => if Ascii.eqb c' c then Some s' else None
  | EmptyString => None
  end.

Fixpoint trimStart (s : string) : string :=
  match s with
  | String c s' => if Ascii.eqb c SP then trimStart s' else s
  | EmptyString => s
  end.

Definition isLeap (y : Z) : bool :=
  ((y mod 4 =? 0) && negb (y mod 100 =? 0)) || (y mod 400 =? 0).

Definition daysInMonth (y m : Z) : Z :=
  if m =? 2 then (if isLeap y then 29 else 28)
  else if (m =? 4) || (m =? 6) || (m =? 9) || (m =? 11) then 30
  else 31.

(** Days from 1970-01-01 to the given day of the proleptic Gregorian
    calendar. *)
Definition daysFromCivil (y m d : Z) : Z :=
  let y' := if m <=? 2 then y - 1 else y in
  let era := y' / 400 in
  let yoe := y' - era * 400 in
  let doy := (153 * (if 2 <? m then m - 3 else m + 9) + 2) / 5 + d - 1 in
  let doe := yoe * 365 + yoe / 4 - yoe / 100 + doy in
  era * 146097 + doe - 719468.

Definition parseUTC (s : string) : option Z :=
  match readDigits 4 0 s with
  | None => None
  | Some (y, s) =>
  match readChar "-" s with
  | None => None
  | Some s =>
  match readDigits 2 0 s with
  | None => None
  | Some (mo, s) =>
  match readChar "-" s with
  | None => None
  | Some s =>
  match readDigits 2 0 s with
  | None => None
  | Some (d, s) =>
  match readChar "T" s with
  | None => None
  | Some s =>
  match readDigits 2 0 s with
  | None => None
  | Some (hh, s) =>
  match readChar ":" s with
  | None => None
  | Some s =>
  match readDigits 2 0 s with
  | None => None
  | Some (mi, s) =>
  match readChar ":" s with
  | None => None
  | Some s =>
  match readDigits 2 0 s with
  | None => None
  | Some (ss, s) =>
  match s with
  | String "Z" EmptyString =>
      if (1 <=? mo) && (mo <=? 12) && (1 <=? d) && (d <=? daysInMonth y mo)
         && (hh <=? 23) && (mi <=? 59) && (ss <=? 59)
      then Some ((((daysFromCivil y mo d * 24 + hh) * 60 + mi) * 60 + ss) * 1000)
      else None
  | _ => None
  end end end end end end end end end end end end.

Definition Date_parse_utc (s : string) : number :=
  match parseUTC (trimStart s) with
  | Some ms => ofZ ms
  | None => NaN
  end.

Definition isAlnum (c : ascii) : bool :=
  let n := nat_of_ascii c in
  ((48 <=? n) && (n <=? 57) || (65 <=? n) && (n <=? 90)
   || (97 <=? n) && (n <=? 122))%nat.

Fixpoint allAlnum (s : string) : bool :=
  match s with
  | EmptyString => true
  | String c s' => isAlnum c && allAlnum s'
  end.

(** [s.includes(p)] *)
Fixpoint includes (p s : string) : bool :=
  String.prefix p s ||
  match s with
  | EmptyString => false
  | String _ s' => includes p s'
  end.

Definition RegExp_literal (pattern : arg) : option (string -> bool) :=
  match pattern with
  | None => Some (fun _ => true)
  | Some p => if allAlnum p then Some (includes p) else None
  end.

Fixpoint exec_table (table : list (string * string)) (line : string)
    : option string :=
  match table with
  | [] => None
  | (command, stdout) :: table' =>
      if String.eqb command line then Some stdout else exec_table table' line
  end.

Definition host (table : list (string * string)) : Host :=
  {| Date_parse := Date_parse_utc;
     RegExp_create := RegExp_literal;
     exec := exec_table table |}.

(** Lines of output, each ended by a line feed. *)
Fixpoint unlines (ls : list string) : string :=
  match ls with
  | [] => EmptyString
  | l :: ls' => l ++ String LF (unlines ls')
  end.

(** A repository at [/repo] whose tag [v2] has no tagger date (a lightweight
    tag listed by [taggerdate]); one commit separates [v1] from [v2] and one
    [v2] from [v3]. *)
Definition tagsOutput : string :=
  unlines ["v1 2023-01-01T00:00:00Z"; "v2 "; "v3 2023-01-21T00:00:00Z"].

Definition repo : list (string * string) :=
  [ ("cd /repo && " ++ listTagsCommand false, tagsOutput);
    ("cd /repo && git cherry v1 v2", unlines ["+ 1a2b3c4"]);
    ("cd /repo && git cherry v2 v3", unlines ["- 0f0f0f0"; "+ 5d6e7f8"]);
    ("cd /repo && git log -n 1 --format=format:%cI 1a2b3c4",
     "2022-12-31T00:00:00Z");
    ("cd /repo && git log -n 1 --format=format:%cI 5d6e7f8",
     "2023-01-20T00:00:00Z") ].

(** A repository whose diff of [v1] and [v2] has two spaces after the [+];
    the last commit of the repository is of 2023-01-05, the commit of the
    diff of 2022-12-31. *)
Definition spaced : list (string * string) :=
  [ ("cd /repo && git cherry v1 v2", unlines ["+  1a2b3c4"]);
    ("cd /repo && git log -n 1 --format=format:%cI ", "2023-01-05T00:00:00Z");
    ("cd /repo && git log -n 1 --format=format:%cI 1a2b3c4",
     "2022-12-31T00:00:00Z") ].

(** A repository whose three releases are ten days apart: two commits enter
    [v2], one and two days before it, and one commit enters [v3], at the
    time of the release. *)
Definition releases : list (string * string) :=
  [ ("cd /repo && " ++ listTagsCommand false,
     unlines ["v1 2023-01-01T00:00:00Z"; "v2 2023-01-11T00:00:00Z";
              "v3 2023-01-21T00:00:00Z"; "nightly 2023-01-22T00:00:00Z"]);
    ("cd /repo && git cherry v1 v2", unlines ["+ 1a2b3c4"; "+ 2b3c4d5"]);
    ("cd /repo && git cherry v2 v3", unlines ["- 0f0f0f0"; "+ 5d6e7f8"]);
    ("cd /repo && git log -n 1 --format=format:%cI 1a2b3c4",
     "2023-01-10T00:00:00Z");
    ("cd /repo && git log -n 1 --format=format:%cI 2b3c4d5",
     "2023-01-09T00:00:00Z");
    ("cd /repo && git log -n 1 --format=format:%cI 5d6e7f8",
     "2023-01-21T00:00:00Z") ].

End Reference.

(* ================================================================== *)
(** ** Facts about binary64 arithmetic

    Rounding is exact on a value that already fits the format.  From this:
    adding non-negative integers is exact while the sum stays below [2^53],
    and dividing by one changes nothing. *)

Module NumberFacts.

Local Open Scope Z_scope.

Lemma digits2_pos_log2 (p : positive) :
  Zpos (digits2_pos p) = Z.log2 (Zpos p) + 1.
Proof.
  assert (E : forall q, digits2_pos q = Pos.size q) by (induction q; simpl; congruence).
  destruct p; simpl; rewrite ?E; lia.
Qed.

Lemma iter_pos_nat {A} (f : A -> A) (p : positive) (x : A) :
  iter_pos f p x = Nat.iter (Pos.to_nat p) f x.
Proof.
  revert x; induction p; intros x; cbn [iter_pos].
  - rewrite !IHp, Pos2Nat.inj_xI, <- Nat.iter_add, <- Nat.iter_succ_r.
    f_equal; lia.
  - rewrite !IHp, Pos2Nat.inj_xO, <- Nat.iter_add. f_equal; lia.
  - reflexivity.
Qed.

Lemma shr_1_iter (n : nat) (m : positive) :
  Nat.iter n shr_1 (Build_shr_record (Zpos (Nat.iter n xO m)) false false)
  = Build_shr_record (Zpos m) false false.
Proof.
  induction n; [reflexivity|].
  rewrite Nat.iter_succ_r. simpl. exact IHn.
Qed.

Lemma pos_iter_nat {A} (f : A -> A) (p : positive) (x : A) :
  Pos.iter f x p = Nat.iter (Pos.to_nat p) f x.
Proof.
  rewrite Pos2Nat.inj_iter. unfold Nat.iter. reflexivity.
Qed.

Lemma Zpos_iter_xO (m kp : positive) :
  Zpos (Pos.iter xO m kp) = Zpos m * 2 ^ Zpos kp.
Proof.
  change (Pos.iter xO m kp) with (shift_pos kp m).
  rewrite shift_pos_correct, Z.pow_pos_fold. lia.
Qed.

Lemma shr_exact (m kp : positive) (e : Z) :
  shr (Build_shr_record (Zpos m * 2 ^ Zpos kp) false false) e (Zpos kp)
  = (Build_shr_record (Zpos m) false false, e + Zpos kp).
Proof.
  unfold shr. rewrite <- Zpos_iter_xO, pos_iter_nat, iter_pos_nat, shr_1_iter.
  reflexivity.
Qed.

Lemma canonical_shr_fexp (m : positive) (e : Z) :
  canonical_mantissa prec emax m e = true ->
  shr_fexp prec emax (Zpos m) e loc_Exact = (Build_shr_record (Zpos m) false false, e).
Proof.
  unfold canonical_mantissa, shr_fexp. intros H%Z.eqb_eq.
  cbn [Zdigits2 shr_record_of_loc]. rewrite H, Z.sub_diag. reflexivity.
Qed.

Lemma binary_round_aux_canonical (s : bool) (m : positive) (e : Z) :
  bounded prec emax m e = true ->
  binary_round_aux prec emax s (Zpos m) e loc_Exact = S754_finite s m e.
Proof.
  unfold bounded. intros [Hc He]%andb_true_iff.
  unfold binary_round_aux. rewrite (canonical_shr_fexp _ _ Hc).
  cbn [shr_m loc_of_shr_record round_nearest_even].
  rewrite (canonical_shr_fexp _ _ Hc). cbn [shr_m]. rewrite He. reflexivity.
Qed.

Lemma binary_round_aux_exact (s : bool) (m : positive) (e k : Z) :
  0 <= k ->
  bounded prec emax m (e + k) = true ->
  binary_round_aux prec emax s (Zpos m * 2 ^ k) e loc_Exact = S754_finite s m (e + k).
Proof.
  intros Hk Hb. destruct k as [|kp|kp]; [| |lia].
  - rewrite Z.pow_0_r, Z.mul_1_r, Z.add_0_r in *.
    now apply binary_round_aux_canonical.
  - unfold binary_round_aux.
    assert (Hs : shr_fexp prec emax (Zpos m * 2 ^ Zpos kp) e loc_Exact
                 = (Build_shr_record (Zpos m) false false, e + Zpos kp)).
    { unfold shr_fexp. rewrite <- Zpos_iter_xO. cbn [Zdigits2 shr_record_of_loc].
      rewrite digits2_pos_log2, Zpos_iter_xO, Z.log2_mul_pow2 by lia.
      apply andb_true_iff in Hb as [Hc _]. apply Z.eqb_eq in Hc.
      rewrite digits2_pos_log2 in Hc.
      replace (Zpos kp + Z.log2 (Zpos m) + 1 + e) with (Z.log2 (Zpos m) + 1 + (e + Zpos kp)) by lia.
      rewrite Hc. replace (e + Zpos kp - e) with (Zpos kp) by lia.
      apply shr_exact. }
    rewrite Hs. cbn [shr_m loc_of_shr_record round_nearest_even].
    apply andb_true_iff in Hb as [Hc He].
    rewrite (canonical_shr_fexp _ _ Hc). cbn [shr_m]. rewrite He. reflexivity.
Qed.

Lemma shl_align_value (m : positive) (e e' : Z) :
  e' <= e ->
  Zpos (fst (shl_align m e e')) = Zpos m * 2 ^ (e - e') /\
  snd (shl_align m e e') = e'.
Proof.
  intros H. unfold shl_align. destruct (e' - e) as [|d|d] eqn:E; cbn [fst snd]; try lia.
  - replace (e - e') with 0 by lia. lia.
  - rewrite Zpos_iter_xO. replace (e - e') with (Zpos d) by lia. auto.
Qed.

Lemma binary_round_value (s : bool) (M m : positive) (E e : Z) :
  bounded prec emax m e = true ->
  Zpos M * 2 ^ (E - Z.min E e) = Zpos m * 2 ^ (e - Z.min E e) ->
  binary_round prec emax s M E = S754_finite s m e.
Proof.
  intros Hb Hv. unfold binary_round.
  assert (Hd : fexp prec emax (Zpos (digits2_pos M) + E) = e).
  { pose proof Hb as [Hc _]%andb_true_iff. apply Z.eqb_eq in Hc.
    etransitivity; [|exact Hc]. f_equal. rewrite !digits2_pos_log2.
    apply (f_equal Z.log2) in Hv.
    rewrite !Z.log2_mul_pow2 in Hv by lia. lia. }
  rewrite Hd. destruct (Z.le_gt_cases E e) as [Hle|Hgt].
  - unfold shl_align. destruct (e - E) as [|d|d] eqn:Ed; try lia.
    + assert (E = e) by lia. subst E.
      rewrite Z.min_id, Z.sub_diag, Z.pow_0_r, !Z.mul_1_r in Hv.
      injection Hv as ->. now apply binary_round_aux_canonical.
    + rewrite Z.min_l, Z.sub_diag, Z.pow_0_r, Z.mul_1_r in Hv by lia.
      rewrite Hv. replace e with (E + (e - E)) at 2 by lia.
      apply binary_round_aux_exact; [lia|].
      now replace (E + (e - E)) with e by lia.
  - destruct (shl_align_value M E e ltac:(lia)) as [Hm He].
    destruct (shl_align M E e) as [mz ez]. cbn [fst snd] in *. subst ez.
    rewrite Z.min_r, Z.sub_diag, Z.pow_0_r, Z.mul_1_r in Hv by lia.
    rewrite Hv in Hm. injection Hm as ->. now apply binary_round_aux_canonical.
Qed.


Lemma mant_value (n : Z) :
  0 < n < 2 ^ 53 -> Zpos (mant n) = n * 2 ^ (52 - Z.log2 n) /\ expo n <= 0.
Proof.
  intros [H0 H1]. assert (Z.log2 n < 53) by (apply Z.log2_lt_pow2; lia).
  pose proof (Z.log2_nonneg n). unfold mant, expo.
  rewrite Z2Pos.id; [lia|]. apply Z.mul_pos_pos; [lia|]. apply Z.pow_pos_nonneg; lia.
Qed.

Lemma bounded_mant (n : Z) :
  0 < n < 2 ^ 53 -> bounded prec emax (mant n) (expo n) = true.
Proof.
  intros H. destruct (mant_value n H) as [Hm He].
  assert (Z.log2 n < 53) by (apply Z.log2_lt_pow2; lia).
  pose proof (Z.log2_nonneg n).
  unfold bounded, canonical_mantissa. apply andb_true_iff; split.
  - apply Z.eqb_eq. rewrite digits2_pos_log2, Hm, Z.log2_mul_pow2 by lia.
    unfold fexp, emin, expo, prec, emax. lia.
  - apply Z.leb_le. unfold expo, prec, emax. lia.
Qed.

Lemma ofZ_pos (n : Z) :
  0 < n < 2 ^ 53 -> ofZ n = S754_finite false (mant n) (expo n).
Proof.
  intros H. destruct (mant_value n H) as [Hm He].
  destruct n as [|p|p]; try lia. unfold ofZ, binary_normalize.
  apply binary_round_value; [now apply bounded_mant|].
  rewrite Z.min_r by lia. rewrite Hm. unfold expo in *.
  rewrite Z.sub_diag, Z.pow_0_r, Z.mul_1_r. f_equal. f_equal. lia.
Qed.


Lemma ofZ_0 : ofZ 0 = S754_zero false.
Proof. reflexivity. Qed.

Lemma add_ofZ_pos (a b : Z) :
  0 < a -> 0 < b -> a + b < 2 ^ 53 ->
  add (ofZ a) (ofZ b) = ofZ (a + b).
Proof.
  intros Ha Hb Hab.
  rewrite !ofZ_pos by lia.
  destruct (mant_value a ltac:(lia)) as [Hma Hea].
  destruct (mant_value b ltac:(lia)) as [Hmb Heb].
  destruct (mant_value (a + b) ltac:(lia)) as [Hmc Hec].
  assert (La : Z.log2 a <= Z.log2 (a + b)) by (apply Z.log2_le_mono; lia).
  assert (Lb : Z.log2 b <= Z.log2 (a + b)) by (apply Z.log2_le_mono; lia).
  pose proof (Z.log2_nonneg a). pose proof (Z.log2_nonneg b).
  unfold add, SFadd. cbn [cond_Zopp].
  set (ez := Z.min (expo a) (expo b)).
  destruct (shl_align_value (mant a) (expo a) ez ltac:(lia)) as [Va _].
  destruct (shl_align_value (mant b) (expo b) ez ltac:(lia)) as [Vb _].
  assert (Ez : ez <= expo (a + b)) by (unfold expo in *; lia).
  assert (Pa : Zpos (fst (shl_align (mant a) (expo a) ez)) = a * 2 ^ (- ez)).
  { rewrite Va, Hma, <- Z.mul_assoc, <- Z.pow_add_r by (unfold expo in *; lia).
    f_equal. f_equal. unfold expo. lia. }
  assert (Pb : Zpos (fst (shl_align (mant b) (expo b) ez)) = b * 2 ^ (- ez)).
  { rewrite Vb, Hmb, <- Z.mul_assoc, <- Z.pow_add_r by (unfold expo in *; lia).
    f_equal. f_equal. unfold expo. lia. }
  destruct (fst (shl_align (mant a) (expo a) ez)) as [] eqn:E1;
  destruct (fst (shl_align (mant b) (expo b) ez)) as [] eqn:E2;
  cbn [Z.add binary_normalize];
  (apply binary_round_value; [apply bounded_mant; lia|];
   rewrite Z.min_l by lia; rewrite Z.sub_diag, Z.pow_0_r, Z.mul_1_r;
   rewrite Hmc, <- Z.mul_assoc, <- Z.pow_add_r by (unfold expo in *; lia);
   replace (52 - Z.log2 (a + b) + (expo (a + b) - ez)) with (- ez) by (unfold expo; lia);
   rewrite Z.mul_add_distr_r, <- Pa, <- Pb; reflexivity).
Qed.

Lemma add_ofZ (a b : Z) :
  0 <= a -> 0 <= b -> a + b < 2 ^ 53 ->
  add (ofZ a) (ofZ b) = ofZ (a + b).
Proof.
  intros Ha Hb Hab.
  destruct (Z.eq_dec a 0) as [->|Na]; destruct (Z.eq_dec b 0) as [->|Nb].
  - reflexivity.
  - rewrite Z.add_0_l, ofZ_0, ofZ_pos by lia. reflexivity.
  - rewrite Z.add_0_r, ofZ_0, ofZ_pos by lia. reflexivity.
  - apply add_ofZ_pos; lia.
Qed.


Lemma div_one (x : number) :
  valid_binary prec emax x = true -> div x (ofZ 1) = x.
Proof.
  intros Hv. change (ofZ 1) with (S754_finite false 4503599627370496 (-52)).
  destruct x as [s|s| |s m e]; cbn [div SFdiv]; rewrite ?xorb_false_r; try reflexivity.
  cbn [valid_binary] in Hv. pose proof Hv as [Hc He]%andb_true_iff.
  apply Z.eqb_eq in Hc. apply Z.leb_le in He.
  rewrite digits2_pos_log2 in Hc. pose proof (Z.log2_nonneg (Zpos m)).
  unfold SFdiv_core_binary. cbn [Zdigits2]. rewrite digits2_pos_log2.
  change (Zpos (digits2_pos 4503599627370496)) with 53.
  set (e' := Z.min _ _).
  assert (He' : e' = e \/ e' = e - 1).
  { subst e'. unfold fexp, emin, prec, emax in *. lia. }
  assert (Hs : e - -52 - e' = 52 + (e - e')) by lia.
  assert (Hm' : match e - -52 - e' with
                | 0 => Zpos m | Zpos _ => Z.shiftl (Zpos m) (e - -52 - e') | Zneg _ => 0 end
                = (Zpos m * 2 ^ (e - e')) * 4503599627370496).
  { clearbody e'. destruct He' as [->| ->].
    - replace (e - -52 - e) with 52 by lia.
      rewrite Z.shiftl_mul_pow2, Z.sub_diag by lia.
      change (2 ^ 52) with 4503599627370496. lia.
    - replace (e - -52 - (e - 1)) with 53 by lia.
      replace (e - (e - 1)) with 1 by lia.
      rewrite Z.shiftl_mul_pow2 by lia. change (2 ^ 53) with (2 ^ 1 * 4503599627370496).
      lia. }
  rewrite Hm'.
  assert (Hdiv : Z.div_eucl (Zpos m * 2 ^ (e - e') * 4503599627370496) 4503599627370496
                 = (Zpos m * 2 ^ (e - e'), 0)).
  { pose proof (Z_div_mod (Zpos m * 2 ^ (e - e') * 4503599627370496) 4503599627370496 ltac:(lia)) as D.
    destruct Z.div_eucl as [q r]. f_equal; nia. }
  rewrite Hdiv. change (new_location 4503599627370496 0) with loc_Exact.
  replace e with (e' + (e - e')) at 2 by lia.
  apply binary_round_aux_exact; [lia|].
  now replace (e' + (e - e')) with e by lia.
Qed.

(** *** Subtraction gives NaN only from NaN or from infinities *)

Lemma shr_1_nonneg (r : shr_record) : 0 <= shr_m r -> 0 <= shr_m (shr_1 r).
Proof.
  destruct r as [m r s]. cbn [shr_m]. intros H.
  destruct m as [|[p|p|]|p]; cbn; lia.
Qed.

Lemma shr_nonneg (r : shr_record) (e n : Z) :
  0 <= shr_m r -> 0 <= shr_m (fst (shr r e n)).
Proof.
  intros H. destruct n as [|p|p]; cbn [shr fst]; try exact H.
  rewrite iter_pos_nat. induction (Pos.to_nat p) as [|k IH]; cbn [Nat.iter];
    [exact H|]. now apply shr_1_nonneg.
Qed.

Lemma shr_fexp_nonneg (m e : Z) (l : location) :
  0 <= m -> 0 <= shr_m (fst (shr_fexp prec emax m e l)).
Proof.
  intros H. unfold shr_fexp. apply shr_nonneg.
  destruct l as [|[| |]]; exact H.
Qed.

Lemma round_nearest_even_nonneg (m : Z) (l : location) :
  0 <= m -> 0 <= round_nearest_even m l.
Proof.
  intros H. destruct l as [|[| |]]; cbn; try lia. destruct (Z.even m); lia.
Qed.

Lemma binary_round_aux_isNaN (s : bool) (m e : Z) (l : location) :
  0 <= m -> isNaN (binary_round_aux prec emax s m e l) = false.
Proof.
  intros H. unfold binary_round_aux.
  pose proof (shr_fexp_nonneg m e l H) as H1.
  destruct (shr_fexp prec emax m e l) as [mrs' e']. cbn [fst] in H1.
  pose proof (shr_fexp_nonneg _ e' loc_Exact
                (round_nearest_even_nonneg _ (loc_of_shr_record mrs') H1)) as H2.
  destruct (shr_fexp prec emax _ e' loc_Exact) as [mrs'' e'']. cbn [fst] in H2.
  destruct (shr_m mrs'') as [|p|p]; [reflexivity| |lia].
  destruct (e'' <=? emax - prec); reflexivity.
Qed.

Lemma binary_normalize_isNaN (m e : Z) (szero : bool) :
  isNaN (binary_normalize prec emax m e szero) = false.
Proof.
  destruct m as [|p|p]; cbn [binary_normalize]; [reflexivity| |];
    unfold binary_round; destruct (shl_align _ _ _);
    now apply binary_round_aux_isNaN.
Qed.

Lemma sub_isNaN (x y : number) :
  isInfinite x = false -> isInfinite y = false ->
  isNaN (sub x y) = isNaN x || isNaN y.
Proof.
  intros Hx Hy.
  destruct x as [sx|sx| |sx mx ex], y as [sy|sy| |sy my ey];
    try discriminate; try reflexivity.
  - destruct sx, sy; reflexivity.
  - cbn [sub SFsub isNaN orb]. apply binary_normalize_isNaN.
Qed.


(** *** Comparisons and NaN *)

Lemma compare_swap (x y : number) :
  SFcompare y x = option_map CompOpp (SFcompare x y).
Proof.
  destruct x as [sx|sx| |sx mx ex], y as [sy|sy| |sy my ey]; cbn;
    try reflexivity; try (destruct sx; reflexivity); try (destruct sy; reflexivity);
    try (destruct sx, sy; reflexivity).
  destruct sx, sy; try reflexivity;
    rewrite (Z.compare_antisym ex ey); destruct (ex ?= ey); cbn; try reflexivity;
    rewrite (Pos.compare_cont_antisym mx my Eq); cbn;
    rewrite ?CompOpp_involutive; reflexivity.
Qed.

Lemma negb_lt_ge (x y : number) :
  isNaN x = false -> isNaN y = false -> negb (lt x y) = ge x y.
Proof.
  intros Hx Hy. unfold lt, ge, SFltb, SFleb. rewrite (compare_swap x y).
  destruct (SFcompare x y) as [[| |]|] eqn:E; try reflexivity.
  destruct x, y; discriminate.
Qed.

Lemma abs_not_negative (x : number) : lt (abs x) (ofZ 0) = false.
Proof. destruct x; reflexivity. Qed.

Lemma abs_NaN_or_ge_0 (x : number) :
  abs x = NaN \/ ge (abs x) (ofZ 0) = true.
Proof. destruct x; cbn; auto. Qed.

Lemma abs_isNaN (x : number) : isNaN (abs x) = isNaN x.
Proof. destruct x; reflexivity. Qed.


End NumberFacts.

(* ================================================================== *)
(** ** Facts about [split] and [substring] *)

Module StringFacts.

Lemma split_nonempty (sep : ascii) (s : string) : split sep s <> [].
Proof.
  destruct s as [|c s]; cbn; [discriminate|].
  destruct (Ascii.eqb c sep); [discriminate|].
  destruct (split sep s); discriminate.
Qed.

(** Without the separator there is one piece. *)
Lemma split_none (sep : ascii) (s : string) :
  contains_char sep s = false -> split sep s = [s].
Proof.
  induction s as [|c s IH]; cbn; [reflexivity|].
  intros [Hc Hs]%orb_false_iff. rewrite Hc, (IH Hs). reflexivity.
Qed.

(** The first piece ends at the first separator. *)
Lemma split_first (sep : ascii) (a b : string) :
  contains_char sep a = false ->
  split sep (a ++ String sep b) = a :: split sep b.
Proof.
  induction a as [|c a IH]; cbn.
  - intros _. rewrite Ascii.eqb_refl. reflexivity.
  - intros [Hc Ha]%orb_false_iff. rewrite Hc, (IH Ha). reflexivity.
Qed.

(** A string is its first piece followed by the rest, which is empty or
    begins with the separator; [substring] at the length of the first piece
    is that rest. *)
Lemma split_hd (sep : ascii) (s : string) :
  let first := hd EmptyString (split sep s) in
  let rest := substring_from (String.length first) s in
  s = first ++ rest /\
  contains_char sep first = false /\
  (rest = EmptyString \/ exists r, rest = String sep r).
Proof.
  induction s as [|c s IH]; cbn.
  - auto.
  - destruct (Ascii.eqb c sep) eqn:E; cbn.
    + apply Ascii.eqb_eq in E. subst c. eauto.
    + destruct IH as (H1 & H2 & H3).
      pose proof (split_nonempty sep s) as Hne.
      destruct (split sep s) as [|piece pieces]; [contradiction|].
      cbn in *. rewrite E, H2. repeat split; auto. congruence.
Qed.

Lemma append_empty_r (s : string) : s ++ EmptyString = s.
Proof. induction s as [|c s IH]; cbn; [reflexivity|]. now rewrite IH. Qed.

End StringFacts.

(* ================================================================== *)
(** ** Facts about computations *)

Module MFacts.

Lemma outcome_bind {A B} (m : M A) (k : A -> M B) :
  outcome (bind m k) =
  match outcome m with
  | inl e => inl e
  | inr a => outcome (k a)
  end.
Proof.
  destruct m as [t [e|a]]; cbn; [reflexivity|]. destruct (k a); reflexivity.
Qed.

Lemma commands_bind {A B} (m : M A) (k : A -> M B) :
  commands (bind m k) =
  match outcome m with
  | inl e => commands m
  | inr a => (commands m ++ commands (k a))%list
  end.
Proof.
  destruct m as [t [e|a]]; cbn; [reflexivity|]. destruct (k a); reflexivity.
Qed.

Lemma bind_ret_l {A B} (a : A) (k : A -> M B) : bind (ret a) k = k a.
Proof. unfold bind, ret. destruct (k a); reflexivity. Qed.

Lemma bind_pure {A B} (a : A) (k : A -> M B) (m : M A) :
  m = ([], inr a) -> bind m k = k a.
Proof. intros ->. apply bind_ret_l. Qed.

Lemma M_eq {A} (m : M A) : m = (commands m, outcome m).
Proof. destruct m; reflexivity. Qed.

End MFacts.

(* ================================================================== *)
(** ** Facts about the two loops of [calculateCycleTime] *)

Module LoopFacts.

Import MFacts.

Section WithHost.

Variable host : Host.

Lemma String_match_ok (tag : string) (regexp : arg) (test : string -> bool) :
  RegExp_create host regexp = Some test ->
  String_match host tag regexp = ret (test tag).
Proof. unfold String_match. now intros ->. Qed.

(** With a pattern that compiles the selector is a filter. *)
Lemma selectReleases_filter (endDate : number) (regexp : arg)
    (test : string -> bool) (tagLines : list string) (acc : list TagRecord) :
  RegExp_create host regexp = Some test ->
  selectReleases host endDate regexp tagLines acc =
  ret (acc ++ filter (keptBy endDate test) (parsedRecords host tagLines))%list.
Proof.
  intros Hre. revert acc.
  induction tagLines as [|tagLine rest IH]; intros acc; cbn.
  - now rewrite app_nil_r.
  - destruct (parseTagLine host tagLine) as [r|]; cbn; [|apply IH].
    unfold keptBy at 1. destruct (gt (date r) endDate); cbn; [apply IH|].
    rewrite (String_match_ok _ _ _ Hre), bind_ret_l.
    destruct (test (tag r)); rewrite IH; [|reflexivity].
    now rewrite <- app_assoc.
Qed.

(** The selector runs no command. *)
Lemma selectReleases_commands (endDate : number) (regexp : arg)
    (tagLines : list string) (acc : list TagRecord) :
  commands (selectReleases host endDate regexp tagLines acc) = [].
Proof.
  destruct (RegExp_create host regexp) as [test|] eqn:Hre.
  - now rewrite (selectReleases_filter _ _ _ _ _ Hre).
  - revert acc. induction tagLines as [|tagLine rest IH]; intros acc; cbn;
      [reflexivity|].
    destruct (parseTagLine host tagLine) as [r|]; [|apply IH].
    destruct (gt (date r) endDate); [apply IH|].
    unfold String_match. rewrite Hre. reflexivity.
Qed.

(** Whatever the pattern, a selection that is returned is the filter by
    [matcher]. *)
Lemma selectReleases_outcome (endDate : number) (regexp : arg)
    (tagLines : list string) (acc selected : list TagRecord) :
  outcome (selectReleases host endDate regexp tagLines acc) = inr selected ->
  selected =
  (acc ++ filter (keptBy endDate (matcher host regexp))
            (parsedRecords host tagLines))%list.
Proof.
  unfold matcher.
  destruct (RegExp_create host regexp) as [test|] eqn:Hre.
  - rewrite (selectReleases_filter _ _ _ _ _ Hre). cbn. congruence.
  - revert acc. induction tagLines as [|tagLine rest IH]; intros acc; cbn.
    + rewrite app_nil_r. congruence.
    + destruct (parseTagLine host tagLine) as [r|]; cbn; [|apply IH].
      unfold keptBy at 1. destruct (gt (date r) endDate); cbn; [apply IH|].
      unfold String_match. rewrite Hre. cbn. discriminate.
Qed.

(** The count grows by the number of pairs in the period. *)
Lemma releaseLoop_count (path : string) (startDate : number)
    (pairs : list (option TagRecord * option TagRecord))
    (durationsData : list number) (n : nat) (totals : list number * nat) :
  outcome (releaseLoop host path startDate pairs durationsData n) = inr totals ->
  snd totals = (n + List.length (filter (inPeriod startDate) pairs))%nat.
Proof.
  revert durationsData n.
  induction pairs as [|release rest IH]; intros durationsData n;
    cbn [releaseLoop filter].
  - unfold outcome, ret. cbn. intros [= <-]. cbn. lia.
  - destruct (inPeriod startDate release) eqn:Hin; cbn [negb List.length].
    + destruct release as [[oldRelease|] [currentRelease|]];
        try (unfold outcome, throw; cbn; discriminate).
      rewrite outcome_bind.
      destruct (outcome (getDurationsForRelease host path (tag oldRelease)
                           (tag currentRelease) (date currentRelease)));
        [discriminate|].
      intros H%IH. rewrite H. lia.
    + apply IH.
Qed.

(** A loop that returns ran the extraction of the pairs in the period, in
    their order, and nothing else. *)
Lemma releaseLoop_commands (path : string) (startDate : number)
    (pairs : list (option TagRecord * option TagRecord))
    (durationsData : list number) (n : nat) (totals : list number * nat) :
  outcome (releaseLoop host path startDate pairs durationsData n) = inr totals ->
  commands (releaseLoop host path startDate pairs durationsData n) =
  flat_map (fun release => commands (extraction host path release))
    (filter (inPeriod startDate) pairs).
Proof.
  revert durationsData n.
  induction pairs as [|release rest IH]; intros durationsData n;
    cbn [releaseLoop filter].
  - reflexivity.
  - destruct (inPeriod startDate release) eqn:Hin; cbn [negb flat_map].
    + destruct release as [[oldRelease|] [currentRelease|]];
        try (unfold outcome, throw; cbn; discriminate).
      rewrite outcome_bind, commands_bind. cbn [extraction].
      destruct (outcome (getDurationsForRelease host path (tag oldRelease)
                           (tag currentRelease) (date currentRelease)));
        [discriminate|].
      intros H%IH. now rewrite H.
    + apply IH.
Qed.

(** With no pair in the period the loop runs no command and changes
    nothing. *)
Lemma releaseLoop_none (path : string) (startDate : number)
    (pairs : list (option TagRecord * option TagRecord))
    (durationsData : list number) (n : nat) :
  filter (inPeriod startDate) pairs = [] ->
  releaseLoop host path startDate pairs durationsData n = ret (durationsData, n).
Proof.
  induction pairs as [|release rest IH]; cbn; [reflexivity|].
  destruct (inPeriod startDate release); cbn; [discriminate|exact IH].
Qed.

End WithHost.

End LoopFacts.

(* ================================================================== *)
(** ** Facts about the release pairer *)

Module PairFacts.

Lemma nth_error_slice1 {A} (l : list A) (i : nat) :
  nth_error (slice1 l) i = nth_error l (S i).
Proof. destruct l; [destruct i|]; reflexivity. Qed.

Lemma length_slice1 {A} (l : list A) :
  List.length (slice1 l) = (List.length l - 1)%nat.
Proof. destruct l; cbn; lia. Qed.

Lemma length_releasePairs (releases : list TagRecord) :
  List.length (releasePairs releases) = List.length releases.
Proof.
  unfold releasePairs, zip.
  rewrite length_map, length_seq, length_slice1. lia.
Qed.

Lemma nth_error_releasePairs (releases : list TagRecord) (i : nat) :
  nth_error (releasePairs releases) i =
  if (i <? List.length releases)%nat
  then Some (nth_error releases i, nth_error releases (S i))
  else None.
Proof.
  unfold releasePairs, zip.
  rewrite nth_error_map, nth_error_seq, length_slice1.
  replace (Nat.max (List.length releases - 1) (List.length releases))
    with (List.length releases) by lia.
  destruct (i <? List.length releases)%nat; cbn [option_map Nat.add];
    [|reflexivity].
  now rewrite nth_error_slice1.
Qed.

End PairFacts.

(* ================================================================== *)
(** ** The release selector, the pairer and the empty period *)

(** C6.  Whatever the tag lines, the pattern and the end date, the releases
    the selector returns are never dated after the end date, all have a name
    the pattern accepts, and are the records of the lines filtered in the
    order of the lines. *)
Theorem selector_emits_only_kept (host : Host) (endDate : number)
    (regexp : arg) (tagLines : list string) (selected : list TagRecord) :
  outcome (selectReleases host endDate regexp tagLines []) = inr selected ->
  Forall (fun r => gt (date r) endDate = false) selected /\
  Forall (fun r => matcher host regexp (tag r) = true) selected /\
  selected = filter (keptBy endDate (matcher host regexp))
               (parsedRecords host tagLines).
Proof.
  intros H%LoopFacts.selectReleases_outcome. cbn [app] in H.
  assert (K : Forall (fun r => keptBy endDate (matcher host regexp) r = true)
                selected).
  { subst selected. apply Forall_forall. intros r Hr.
    now apply filter_In in Hr. }
  repeat split; [| |exact H].
  - eapply Forall_impl; [|exact K]. cbn. intros r [Hd _]%andb_true_iff.
    now apply negb_true_iff.
  - eapply Forall_impl; [|exact K]. cbn. now intros r [_ Hm]%andb_true_iff.
Qed.

(** The selector on the tags of the reference repository with the pattern
    [v] and the end date 2023-01-15: [v3] is later and is dropped. *)
Lemma selector_emits_only_kept_witness :
  let selected := [ {| tag := "v1"; date := ofZ 1672531200000 |};
                    {| tag := "v2"; date := NaN |} ] in
  Forall (fun r => gt (date r) (ofZ 1673740800000) = false) selected /\
  Forall (fun r => matcher (Reference.host Reference.repo) (Some "v") (tag r)
                   = true) selected /\
  selected = filter (keptBy (ofZ 1673740800000)
                       (matcher (Reference.host Reference.repo) (Some "v")))
               (parsedRecords (Reference.host Reference.repo)
                  (split LF Reference.tagsOutput)).
Proof.
  apply (selector_emits_only_kept (Reference.host Reference.repo)
           (ofZ 1673740800000) (Some "v") (split LF Reference.tagsOutput)).
  vm_compute. reflexivity.
Defined.

(** C8.  When no pair is in the period, the pipeline returns a result, not
    an error: no release and a cycle time that is NaN, with no command
    run. *)
Theorem empty_period_gives_NaN (host : Host) (path tagsData : string)
    (startDate endDate : number) (regexp : arg) (releases : list TagRecord) :
  outcome (selectReleases host endDate regexp (split LF tagsData) [])
  = inr releases ->
  filter (inPeriod startDate) (releasePairs releases) = [] ->
  calculateCycleTime host path tagsData startDate endDate regexp
  = ret {| cycleTime := NaN; numberOfReleases := 0 |}.
Proof.
  intros Hsel Hnone. unfold calculateCycleTime.
  rewrite (MFacts.bind_pure releases).
  - fold (releasePairs releases).
    rewrite (LoopFacts.releaseLoop_none _ _ _ _ _ _ Hnone), MFacts.bind_ret_l.
    reflexivity.
  - rewrite (MFacts.M_eq (selectReleases _ _ _ _ _)).
    now rewrite LoopFacts.selectReleases_commands, Hsel.
Qed.

(** No tag of the reference repository contains [release]. *)
Lemma empty_period_gives_NaN_witness :
  calculateCycleTime (Reference.host Reference.repo) "/repo"
    Reference.tagsOutput (ofZ 1672531200000) (ofZ 1675209600000)
    (Some "release")
  = ret {| cycleTime := NaN; numberOfReleases := 0 |}.
Proof.
  apply (empty_period_gives_NaN (Reference.host Reference.repo) "/repo"
           Reference.tagsOutput (ofZ 1672531200000) (ofZ 1675209600000)
           (Some "release") []); vm_compute; reflexivity.
Defined.

(* ================================================================== *)
(** ** The window filter *)

(** C1, as stated, fails: a release whose date did not parse is in the
    period.  The tag [v2] of the reference repository has no date; its
    timestamp is NaN, which is not [>=] the start date, and yet the pair
    ([v1], [v2]) goes to the extraction and is counted. *)
Lemma nan_release_is_counted :
  let h := Reference.host Reference.repo in
  let v1 := {| tag := "v1"; date := ofZ 1672531200000 |} in
  let v2 := {| tag := "v2"; date := NaN |} in
  let startDate := ofZ 1672531200000 in
  parseTagLine h "v2 " = Some v2 /\
  releasePairs [v1; v2] = [(Some v1, Some v2); (Some v2, None)] /\
  ge (date v2) startDate = false /\
  inPeriod startDate (Some v1, Some v2) = true /\
  calculateCycleTime h "/repo"
    (Reference.unlines ["v1 2023-01-01T00:00:00Z"; "v2 "])
    startDate (ofZ 1675209600000) (Some "v")
  = ([ "cd /repo && git cherry v1 v2";
       "cd /repo && git log -n 1 --format=format:%cI 1a2b3c4" ],
     inr {| cycleTime := NaN; numberOfReleases := 1 |}).
Proof. vm_compute. repeat split. Qed.

(** C1, amended.  A pair is in the period exactly when its later release is
    present and its timestamp is not [<] the start date.  When neither
    number is NaN this is [later.timestamp >= startDate]; a later release
    whose timestamp is NaN is in the period.  A run that returns counts the
    pairs in the period and has run the extraction of exactly these pairs,
    in their order. *)
Theorem window_filter_admits (host : Host) (path tagsData : string)
    (startDate endDate : number) (regexp : arg) :
  (forall release,
      inPeriod startDate release = true <->
      exists later, snd release = Some later /\
                    lt (date later) startDate = false) /\
  (forall release later,
      snd release = Some later ->
      isNaN (date later) = false -> isNaN startDate = false ->
      inPeriod startDate release = ge (date later) startDate) /\
  (forall earlier later,
      date later = NaN -> inPeriod startDate (earlier, Some later) = true) /\
  (forall result,
      outcome (calculateCycleTime host path tagsData startDate endDate regexp)
      = inr result ->
      exists releases,
        outcome (selectReleases host endDate regexp (split LF tagsData) [])
        = inr releases /\
        numberOfReleases result =
        List.length (filter (inPeriod startDate) (releasePairs releases)) /\
        commands (calculateCycleTime host path tagsData startDate endDate regexp)
        = flat_map (fun release => commands (extraction host path release))
            (filter (inPeriod startDate) (releasePairs releases))).
Proof.
  repeat split.
  - unfold inPeriod. destruct (snd release) as [later|]; [|discriminate].
    intros H%negb_true_iff. eauto.
  - intros (later & Hl & Hd). unfold inPeriod. rewrite Hl, Hd. reflexivity.
  - intros release later Hl Hd Hs. unfold inPeriod. rewrite Hl.
    now apply NumberFacts.negb_lt_ge.
  - intros earlier later Hd. unfold inPeriod. cbn. now rewrite Hd.
  - intros result. unfold calculateCycleTime.
    rewrite MFacts.outcome_bind, MFacts.commands_bind,
      LoopFacts.selectReleases_commands.
    destruct (outcome (selectReleases host endDate regexp (split LF tagsData) []))
      as [e|releases]; [discriminate|].
    fold (releasePairs releases).
    rewrite MFacts.outcome_bind, MFacts.commands_bind.
    destruct (outcome (releaseLoop host path startDate (releasePairs releases)
                         [] 0)) as [e|totals] eqn:Hloop; [discriminate|].
    unfold outcome at 1, ret. cbn [snd]. intros [= <-].
    exists releases. cbn [numberOfReleases commands fst app].
    rewrite (LoopFacts.releaseLoop_count _ _ _ _ _ _ _ Hloop).
    rewrite (LoopFacts.releaseLoop_commands _ _ _ _ _ _ _ Hloop).
    now rewrite app_nil_r.
Qed.

(* ================================================================== *)
(** ** The tag record parser *)

(** C5, as stated, fails: a line with no date, and a blank line, give a
    record whose timestamp is NaN. *)
Lemma malformed_line_gives_record :
  let h := Reference.host [] in
  parseTagLine h "garbage" = Some {| tag := "garbage"; date := NaN |} /\
  parseTagLine h " " = Some {| tag := EmptyString; date := NaN |}.
Proof. vm_compute. split; reflexivity. Qed.

(** C5, amended.  Only the empty line gives no record.  Every other line,
    malformed and blank lines too, gives a record: its name is the part of
    the line before the first space, and its timestamp is [Date.parse] of
    the rest of the line, which is empty or begins with that space. *)
Theorem parser_record_of_line (host : Host) (tagLine : string) :
  (parseTagLine host tagLine = None <-> tagLine = EmptyString) /\
  (tagLine <> EmptyString ->
   exists name rest,
     tagLine = name ++ rest /\
     contains_char SP name = false /\
     (rest = EmptyString \/ exists r, rest = String SP r) /\
     parseTagLine host tagLine
     = Some {| tag := name; date := Date_parse host rest |}).
Proof.
  unfold parseTagLine. split.
  - destruct tagLine; cbn; split; intros; congruence.
  - intros Hne. destruct tagLine as [|c s]; [contradiction|].
    cbn [String.length Nat.eqb].
    destruct (StringFacts.split_hd SP (String c s)) as (H1 & H2 & H3).
    eexists _, _. repeat split; eassumption.
Qed.

(* ================================================================== *)
(** ** The duration extractor *)

Module ExtractorFacts.

Import MFacts.

Section WithHost.

Variable host : Host.

(** When the timestamp of every kept line is obtained, the loop appends
    them in the order of the lines. *)
Lemma commitTimes_kept (path : string) (cherryCommits : list string)
    (commitDates stamps : list number) :
  Forall2 (fun cherryCommit t =>
             outcome (getCommitTime host path (cherrySha cherryCommit)) = inr t)
    (filter (startsWith "+") cherryCommits) stamps ->
  outcome (commitTimes host path cherryCommits commitDates)
  = inr (commitDates ++ stamps)%list.
Proof.
  revert commitDates stamps.
  induction cherryCommits as [|cherryCommit rest IH]; intros commitDates stamps;
    cbn [filter commitTimes].
  - intros H. inversion H. now rewrite app_nil_r.
  - destruct (startsWith "+" cherryCommit); [|apply IH].
    intros H. inversion H as [|? t ? stamps' Ht Hrest]; subst.
    rewrite outcome_bind, Ht, (IH _ _ Hrest), <- app_assoc. reflexivity.
Qed.

(** Every timestamp the loop adds is [Date.parse] of an output. *)
Lemma commitTimes_parsed (path : string) (cherryCommits : list string)
    (commitDates result : list number) :
  outcome (commitTimes host path cherryCommits commitDates) = inr result ->
  exists stamps,
    result = (commitDates ++ stamps)%list /\
    Forall (fun t => exists stdout, t = Date_parse host stdout) stamps.
Proof.
  revert commitDates.
  induction cherryCommits as [|cherryCommit rest IH]; intros commitDates;
    cbn [commitTimes].
  - unfold outcome, ret. cbn. intros [= <-]. exists []. now rewrite app_nil_r.
  - destruct (startsWith "+" cherryCommit); [|apply IH].
    rewrite outcome_bind.
    destruct (outcome (getCommitTime host path (cherrySha cherryCommit)))
      as [e|t] eqn:Ht; [discriminate|].
    intros (stamps & -> & Hs)%IH. exists (t :: stamps).
    rewrite <- app_assoc. split; [reflexivity|]. constructor; [|exact Hs].
    unfold getCommitTime in Ht. rewrite outcome_bind in Ht.
    destruct (outcome (runShellCommand host path _)) as [e|stdout];
      [discriminate|].
    unfold outcome, ret in Ht. cbn in Ht. injection Ht as <-. eauto.
Qed.

End WithHost.

End ExtractorFacts.

(** C9, as stated, fails: the pair ([v1], [v2]) of the reference repository
    is in the period, the timestamp of [v2] is NaN, and the duration of its
    commit is NaN, which is not a number [>= 0]. *)
Lemma nan_release_gives_nan_duration :
  let h := Reference.host Reference.repo in
  let v1 := {| tag := "v1"; date := ofZ 1672531200000 |} in
  let v2 := {| tag := "v2"; date := NaN |} in
  parseTagLine h "v2 " = Some v2 /\
  inPeriod (ofZ 1672531200000) (Some v1, Some v2) = true /\
  outcome (extraction h "/repo" (Some v1, Some v2)) = inr [NaN] /\
  ge NaN (ofZ 0) = false.
Proof. vm_compute. repeat split. Qed.

(** C9, amended.  Every duration the extractor returns is
    [|releaseDate - Date.parse(output)|] for the output of a command; it is
    never negative: it is NaN or a number [>= 0].  For timestamps that are
    not infinite, as those of [Date.parse], it is NaN exactly when the
    release timestamp or the commit timestamp is NaN. *)
Theorem duration_never_negative (host : Host) (path upstream head : string)
    (releaseDate : number) (durations : list number) :
  outcome (getDurationsForRelease host path upstream head releaseDate)
  = inr durations ->
  Forall (fun d => exists stdout,
              d = abs (sub releaseDate (Date_parse host stdout)) /\
              lt d (ofZ 0) = false /\
              (d = NaN \/ ge d (ofZ 0) = true)) durations /\
  (forall x y,
      isInfinite x = false -> isInfinite y = false ->
      isNaN (abs (sub x y)) = isNaN x || isNaN y).
Proof.
  intros H. split.
  - unfold getDurationsForRelease in H. rewrite MFacts.outcome_bind in H.
    destruct (outcome (getCherryForRelease host path upstream head))
      as [e|commitsDiff]; [discriminate|].
    rewrite MFacts.outcome_bind in H.
    destruct (outcome (commitTimes host path (split LF commitsDiff) []))
      as [e|commitDates] eqn:Hc; [discriminate|].
    apply ExtractorFacts.commitTimes_parsed in Hc as (stamps & -> & Hs).
    unfold outcome, ret in H. cbn in H. injection H as <-.
    apply Forall_map. eapply Forall_impl; [|exact Hs].
    cbn. intros t [stdout ->]. exists stdout.
    split; [reflexivity|]. split.
    + apply NumberFacts.abs_not_negative.
    + apply NumberFacts.abs_NaN_or_ge_0.
  - intros x y Hx Hy.
    now rewrite NumberFacts.abs_isNaN, NumberFacts.sub_isNaN.
Qed.

(** The pair ([v2], [v3]) of the reference repository: one duration, of a
    day. *)
Lemma duration_never_negative_witness :
  Forall (fun d => exists stdout,
              d = abs (sub (ofZ 1674259200000)
                         (Date_parse (Reference.host Reference.repo) stdout)) /\
              lt d (ofZ 0) = false /\
              (d = NaN \/ ge d (ofZ 0) = true)) [ofZ 86400000] /\
  (forall x y,
      isInfinite x = false -> isInfinite y = false ->
      isNaN (abs (sub x y)) = isNaN x || isNaN y).
Proof.
  apply (duration_never_negative (Reference.host Reference.repo) "/repo"
           "v2" "v3" (ofZ 1674259200000) [ofZ 86400000]).
  vm_compute. reflexivity.
Defined.

(* ================================================================== *)
(** ** The aggregator *)

Module MeanFacts.

Local Open Scope Z_scope.

(** Adding non-negative integers from the left is exact while the total is
    below [2^53]. *)
Lemma fold_add_exact (rest : list Z) (first : Z) :
  0 <= first -> Forall (fun n => 0 <= n) rest ->
  first + total rest < 2 ^ 53 ->
  fold_left add (map ofZ rest) (ofZ first) = ofZ (first + total rest).
Proof.
  revert first. induction rest as [|n rest IH]; intros first H0 Hall Hsum;
    unfold total in *; cbn [map fold_left fold_right] in *.
  - now rewrite Z.add_0_r.
  - inversion Hall as [|? ? Hn Hrest]; subst.
    assert (0 <= fold_right Z.add 0 rest).
    { clear -Hrest. induction Hrest; cbn [fold_right]; lia. }
    rewrite NumberFacts.add_ofZ by lia.
    rewrite IH by (assumption || lia). f_equal. lia.
Qed.

Lemma mean_ofZ (l : list Z) :
  Forall (fun n => 0 <= n) l -> total l < 2 ^ 53 ->
  mean (map ofZ l) =
  match l with
  | [] => NaN
  | _ => div (ofZ (total l)) (ofZ (Z.of_nat (List.length l)))
  end.
Proof.
  destruct l as [|first rest]; [reflexivity|]. intros Hall Hsum.
  inversion Hall; subst. cbn [map mean List.length].
  rewrite fold_add_exact by assumption. now rewrite length_map.
Qed.

Lemma total_Permutation (l l' : list Z) :
  Permutation l l' -> total l = total l'.
Proof. induction 1; unfold total in *; cbn [fold_right]; lia. Qed.

End MeanFacts.

(** C3, as stated, fails: binary64 addition rounds once the sum reaches
    [2^53].  The durations [2^53], [1], [1] (the first separates the last
    instant a [Date] can hold from a commit [2^53] milliseconds earlier)
    have one mean in this order and another with [2^53] last. *)
Lemma mean_depends_on_order :
  let big := ofZ 9007199254740992 in
  abs (sub (ofZ 8640000000000000) (ofZ (-367199254740992))) = big /\
  abs (sub (ofZ 1) (ofZ 0)) = ofZ 1 /\
  Permutation [big; ofZ 1; ofZ 1] [ofZ 1; ofZ 1; big] /\
  mean [big; ofZ 1; ofZ 1] = div (ofZ 9007199254740992) (ofZ 3) /\
  mean [ofZ 1; ofZ 1; big] = div (ofZ 9007199254740994) (ofZ 3) /\
  mean [big; ofZ 1; ofZ 1] <> mean [ofZ 1; ofZ 1; big].
Proof.
  cbv zeta. repeat split; try (vm_compute; reflexivity).
  - eapply perm_trans; [apply perm_swap|]. apply perm_skip, perm_swap.
  - vm_compute. discriminate.
Qed.

(** C3, amended.  [mean] of the empty list is NaN; [mean] of a list of one
    number is that number; and [mean] is the same for every reordering of a
    list of durations that are whole numbers of milliseconds with a total
    below [2^53]. *)
Theorem mean_properties :
  mean [] = NaN /\
  (forall x, valid x = true -> mean [x] = x) /\
  (forall l l' : list Z,
      Forall (fun n => 0 <= n) l -> total l < 2 ^ 53 -> Permutation l l' ->
      mean (map ofZ l) = mean (map ofZ l')).
Proof.
  split; [reflexivity|]. split.
  - intros x Hx. cbn. now apply NumberFacts.div_one.
  - intros l l' Hall Hsum Hperm.
    pose proof (MeanFacts.total_Permutation _ _ Hperm) as Ht.
    pose proof (Permutation_length Hperm) as Hl.
    rewrite (MeanFacts.mean_ofZ l Hall Hsum).
    rewrite (MeanFacts.mean_ofZ l');
      [|eapply Permutation_Forall; eassumption|congruence].
    destruct l, l'; try discriminate; [reflexivity|]. now rewrite Ht, Hl.
Qed.

(* ================================================================== *)
(** ** The checks of [execute] *)

Module ExecuteFacts.

Import MFacts.

Lemma notThrown_bind {A B} (m : M A) (k : A -> M B) :
  notThrown m -> (forall a, notThrown (k a)) -> notThrown (bind m k).
Proof.
  intros Hm Hk message. rewrite outcome_bind.
  destruct (outcome m) as [e|a] eqn:E; [|apply Hk].
  intros H. apply (Hm message). congruence.
Qed.

Lemma notThrown_ret {A} (a : A) : notThrown (ret a).
Proof. intros message. discriminate. Qed.

Section WithHost.

Variable host : Host.

Lemma notThrown_runShellCommand (path command : string) :
  notThrown (runShellCommand host path command).
Proof.
  intros message. unfold runShellCommand, outcome. cbn.
  destruct (exec host _); discriminate.
Qed.

Lemma notThrown_commitTimes (path : string) (cherryCommits : list string)
    (commitDates : list number) :
  notThrown (commitTimes host path cherryCommits commitDates).
Proof.
  revert commitDates.
  induction cherryCommits as [|cherryCommit rest IH]; intros commitDates;
    cbn [commitTimes]; [apply notThrown_ret|].
  destruct (startsWith "+" cherryCommit); [|apply IH].
  apply notThrown_bind; [|intros; apply IH].
  apply notThrown_bind; [apply notThrown_runShellCommand|].
  intros; apply notThrown_ret.
Qed.

Lemma notThrown_getDurationsForRelease (path upstream head : string)
    (releaseDate : number) :
  notThrown (getDurationsForRelease host path upstream head releaseDate).
Proof.
  apply notThrown_bind; [apply notThrown_runShellCommand|]. intros commitsDiff.
  apply notThrown_bind; [apply notThrown_commitTimes|].
  intros; apply notThrown_ret.
Qed.

Lemma notThrown_releaseLoop (path : string) (startDate : number)
    (pairs : list (option TagRecord * option TagRecord))
    (durationsData : list number) (n : nat) :
  notThrown (releaseLoop host path startDate pairs durationsData n).
Proof.
  revert durationsData n.
  induction pairs as [|release rest IH]; intros durationsData n;
    cbn [releaseLoop]; [apply notThrown_ret|].
  destruct (negb (inPeriod startDate release)); [apply IH|].
  destruct release as [[oldRelease|] [currentRelease|]];
    try (intros message; discriminate).
  apply notThrown_bind; [apply notThrown_getDurationsForRelease|].
  intros; apply IH.
Qed.

Lemma notThrown_selectReleases (endDate : number) (regexp : arg)
    (tagLines : list string) (acc : list TagRecord) :
  notThrown (selectReleases host endDate regexp tagLines acc).
Proof.
  revert acc. induction tagLines as [|tagLine rest IH]; intros acc;
    cbn [selectReleases]; [apply notThrown_ret|].
  destruct (parseTagLine host tagLine) as [r|]; [|apply IH].
  destruct (gt (date r) endDate); [apply IH|].
  apply notThrown_bind.
  - unfold String_match. destruct (RegExp_create host regexp);
      intros message; discriminate.
  - intros []; apply IH.
Qed.

Lemma notThrown_calculateCycleTime (path tagsData : string)
    (startDate endDate : number) (regexp : arg) :
  notThrown (calculateCycleTime host path tagsData startDate endDate regexp).
Proof.
  apply notThrown_bind; [apply notThrown_selectReleases|]. intros releases.
  apply notThrown_bind; [apply notThrown_releaseLoop|].
  intros; apply notThrown_ret.
Qed.


(** A start date that is NaN or zero is reported before any command. *)
Lemma execute_no_start (startDateString endDateString regexp : arg)
    (isLightweight : bool) (path : arg) :
  truthy_arg path = true ->
  truthy (Date_parse host (ToString startDateString)) = false ->
  execute host startDateString endDateString regexp isLightweight path
  = throw (Thrown "Couldn't parse start-date argument").
Proof. unfold execute. now intros -> ->. Qed.


End WithHost.

End ExecuteFacts.

(** C10.  With a path given, [execute] ends by the error of the start date
    exactly when [Date.parse] of the start date is not truthy, that is NaN
    or zero; so the date 1970-01-01T00:00:00Z, whose time value is 0, is
    refused although it is a date, and no command is run. *)
Theorem start_date_rejected_when_falsy (host : Host)
    (startDateString endDateString regexp : arg) (isLightweight : bool)
    (path : arg) :
  truthy_arg path = true ->
  (outcome (execute host startDateString endDateString regexp isLightweight
              path)
   = inl (Thrown "Couldn't parse start-date argument") <->
   truthy (Date_parse host (ToString startDateString)) = false) /\
  (forall x, truthy x = false <-> x = NaN \/ exists s, x = S754_zero s) /\
  (Date_parse host "1970-01-01T00:00:00Z" = ofZ 0 ->
   execute host (Some "1970-01-01T00:00:00Z") endDateString regexp
     isLightweight path
   = throw (Thrown "Couldn't parse start-date argument")).
Proof.
  intros Hpath. repeat split.
  - destruct (truthy (Date_parse host (ToString startDateString))) eqn:Hs;
      [|reflexivity].
    unfold execute. rewrite Hpath, Hs. cbn [negb].
    rewrite MFacts.outcome_bind. intros H. exfalso.
    destruct (outcome (runShellCommand host _ _)) as [e|releaseTags] eqn:Hr.
    + injection H as ->.
      exact (ExecuteFacts.notThrown_runShellCommand _ _ _ _ Hr).
    + destruct (negb (truthy_arg endDateString)).
      * discriminate H.
      * exact (ExecuteFacts.notThrown_calculateCycleTime _ _ _ _ _ _ _ H).
  - intros Hs. now rewrite ExecuteFacts.execute_no_start.
  - destruct x; cbn; try discriminate; eauto.
  - intros [->|[s ->]]; reflexivity.
  - intros H0. apply ExecuteFacts.execute_no_start; [exact Hpath|].
    cbn [ToString]. now rewrite H0.
Qed.

(** The epoch as start date on the reference host. *)
Lemma start_date_rejected_when_falsy_witness :
  let h := Reference.host Reference.repo in
  (outcome (execute h (Some "1970-01-01T00:00:00Z")
              (Some "2023-02-01T00:00:00Z") (Some "v") false (Some "/repo"))
   = inl (Thrown "Couldn't parse start-date argument") <->
   truthy (Date_parse h (ToString (Some "1970-01-01T00:00:00Z"))) = false) /\
  (forall x, truthy x = false <-> x = NaN \/ exists s, x = S754_zero s) /\
  (Date_parse h "1970-01-01T00:00:00Z" = ofZ 0 ->
   execute h (Some "1970-01-01T00:00:00Z") (Some "2023-02-01T00:00:00Z")
     (Some "v") false (Some "/repo")
   = throw (Thrown "Couldn't parse start-date argument")).
Proof.
  apply (start_date_rejected_when_falsy (Reference.host Reference.repo)
           (Some "1970-01-01T00:00:00Z") (Some "2023-02-01T00:00:00Z")
           (Some "v") false (Some "/repo")).
  reflexivity.
Defined.

(** C4 at the inputs where the code departs from it.  With an empty end
    date the tags are listed before the error of the end date is thrown;
    with an end date that does not parse, or with no pattern, no error is
    thrown at all and the whole pipeline runs. *)
Lemma end_date_checked_after_listing :
  let h := Reference.host Reference.repo in
  let start := Some "2023-01-01T00:00:00Z" in
  let all :=
    [ "cd /repo && " ++ listTagsCommand false;
      "cd /repo && git cherry v1 v2";
      "cd /repo && git log -n 1 --format=format:%cI 1a2b3c4";
      "cd /repo && git cherry v2 v3";
      "cd /repo && git log -n 1 --format=format:%cI 5d6e7f8" ] in
  execute h start (Some EmptyString) (Some "v") false (Some "/repo")
  = ([ "cd /repo && " ++ listTagsCommand false ],
     inl (Thrown "Couldn't parse end-date argument")) /\
  Date_parse h "someday" = NaN /\
  execute h start (Some "someday") (Some "v") false (Some "/repo")
  = (all, inr {| cycleTime := NaN; numberOfReleases := 2 |}) /\
  execute h start (Some "2023-02-01T00:00:00Z") None false (Some "/repo")
  = (all, inr {| cycleTime := NaN; numberOfReleases := 2 |}).
Proof. vm_compute. repeat split. Qed.

(* ================================================================== *)
(** ** The scenarios of the specification on the reference host *)

(** Releases at day 0, 10 and 20 and the period from day 5 to day 25: the
    pairs ([v1], [v2]) and ([v2], [v3]) are in the period; the durations are
    one day, two days and zero, and their mean is 24 hours. *)
Example three_releases_two_pairs :
  execute (Reference.host Reference.releases) (Some "2023-01-06T00:00:00Z")
    (Some "2023-01-26T00:00:00Z") (Some "v") false (Some "/repo")
  = ([ "cd /repo && " ++ listTagsCommand false;
       "cd /repo && git cherry v1 v2";
       "cd /repo && git log -n 1 --format=format:%cI 1a2b3c4";
       "cd /repo && git log -n 1 --format=format:%cI 2b3c4d5";
       "cd /repo && git cherry v2 v3";
       "cd /repo && git log -n 1 --format=format:%cI 5d6e7f8" ],
     inr {| cycleTime := ofZ 24; numberOfReleases := 2 |}).
Proof. vm_compute. reflexivity. Qed.

(** A commit made at the time of its release has duration zero, and so has
    the mean of the pair. *)
Example commit_at_release_time :
  outcome (getDurationsForRelease (Reference.host Reference.releases) "/repo"
             "v2" "v3" (ofZ 1674259200000)) = inr [ofZ 0] /\
  mean [ofZ 0] = ofZ 0.
Proof. vm_compute. split; reflexivity. Qed.

(* ================================================================== *)
(** ** More binary64 arithmetic: signed integers, symmetry, absorption *)

Module SignedFacts.

Import NumberFacts.

Local Open Scope Z_scope.

(** The representation of a non-zero integer of magnitude below [2^53]. *)
Lemma ofZ_nonzero (n : Z) :
  n <> 0 -> Z.abs n < 2 ^ 53 ->
  ofZ n = S754_finite (n <? 0) (mant (Z.abs n)) (expo (Z.abs n)).
Proof.
  intros Hn Hb. destruct n as [|p|p]; [contradiction| |].
  - change (Z.abs (Zpos p)) with (Zpos p) in *.
    change (Zpos p <? 0) with false. apply ofZ_pos. lia.
  - change (Z.abs (Zneg p)) with (Zpos p) in *.
    change (Zneg p <? 0) with true.
    destruct (mant_value (Zpos p) ltac:(lia)) as [Hm He].
    unfold ofZ, binary_normalize.
    apply binary_round_value; [apply bounded_mant; lia|].
    rewrite Z.min_r by lia. rewrite Hm. unfold expo in *.
    rewrite Z.sub_diag, Z.pow_0_r, Z.mul_1_r. f_equal. f_equal. lia.
Qed.

Lemma abs_ofZ (n : Z) : Z.abs n < 2 ^ 53 -> abs (ofZ n) = ofZ (Z.abs n).
Proof.
  intros Hb. destruct (Z.eq_dec n 0) as [->|Hn]; [reflexivity|].
  rewrite (ofZ_nonzero n Hn Hb), (ofZ_nonzero (Z.abs n)) by lia.
  rewrite Z.abs_idemp. cbn [abs SFabs].
  replace (Z.abs n <? 0) with false by (symmetry; apply Z.ltb_ge; lia).
  reflexivity.
Qed.

(** The aligned mantissa of a representation, with its sign, is the integer
    scaled. *)
Lemma aligned_value (n ez : Z) :
  n <> 0 -> Z.abs n < 2 ^ 53 -> ez <= expo (Z.abs n) ->
  cond_Zopp (n <? 0)
    (Zpos (fst (shl_align (mant (Z.abs n)) (expo (Z.abs n)) ez)))
  = n * 2 ^ (- ez).
Proof.
  intros Hn Hb Hez.
  destruct (mant_value (Z.abs n) ltac:(lia)) as [Hm He].
  destruct (shl_align_value (mant (Z.abs n)) (expo (Z.abs n)) ez Hez) as [V _].
  rewrite V, Hm, <- Z.mul_assoc, <- Z.pow_add_r by (unfold expo in *; lia).
  replace (52 - Z.log2 (Z.abs n) + (expo (Z.abs n) - ez)) with (- ez)
    by (unfold expo; lia).
  destruct (n <? 0) eqn:E; cbn [cond_Zopp].
  - apply Z.ltb_lt in E. rewrite Z.abs_neq by lia. lia.
  - apply Z.ltb_ge in E. rewrite Z.abs_eq by lia. reflexivity.
Qed.

(** Rounding an integer scaled by a power of two gives the integer. *)
Lemma binary_normalize_scaled (d ez : Z) :
  Z.abs d < 2 ^ 53 -> ez <= 0 ->
  binary_normalize prec emax (d * 2 ^ (- ez)) ez false = ofZ d.
Proof.
  intros Hb Hez. destruct (Z.eq_dec d 0) as [->|Hd]; [reflexivity|].
  rewrite (ofZ_nonzero d Hd Hb).
  destruct (mant_value (Z.abs d) ltac:(lia)) as [Hm He].
  assert (Hp : 0 < 2 ^ (- ez)) by (apply Z.pow_pos_nonneg; lia).
  assert (Hval : forall M : positive,
             Zpos M = Z.abs d * 2 ^ (- ez) ->
             forall s, binary_round prec emax s M ez
                       = S754_finite s (mant (Z.abs d)) (expo (Z.abs d))).
  { intros M HM s. apply binary_round_value; [apply bounded_mant; lia|].
    rewrite HM, Hm. rewrite <- !Z.mul_assoc, <- !Z.pow_add_r
      by (unfold expo in *; lia).
    f_equal. f_equal. unfold expo. lia. }
  destruct (d * 2 ^ (- ez)) as [|M|M] eqn:E; cbn [binary_normalize].
  - nia.
  - assert (0 < d) by nia.
    replace (d <? 0) with false by (symmetry; apply Z.ltb_ge; lia).
    apply Hval. rewrite Z.abs_eq by lia. lia.
  - assert (d < 0) by nia.
    replace (d <? 0) with true by (symmetry; apply Z.ltb_lt; lia).
    apply Hval. rewrite Z.abs_neq by lia. lia.
Qed.

(** Subtraction of integers is exact while the operands and the difference
    stay within [2^53]. *)
Lemma sub_ofZ (a b : Z) :
  Z.abs a < 2 ^ 53 -> Z.abs b < 2 ^ 53 -> Z.abs (a - b) < 2 ^ 53 ->
  sub (ofZ a) (ofZ b) = ofZ (a - b).
Proof.
  intros Ha Hb Hd.
  destruct (Z.eq_dec a 0) as [->|Na]; destruct (Z.eq_dec b 0) as [->|Nb].
  - reflexivity.
  - rewrite (ofZ_nonzero b Nb Hb), (ofZ_nonzero (0 - b)) by lia.
    cbn [sub SFsub ofZ binary_normalize]. rewrite Z.sub_0_l, Z.abs_opp.
    f_equal. destruct (Z.ltb_spec b 0), (Z.ltb_spec (- b) 0); cbn; lia || reflexivity.
  - rewrite Z.sub_0_r, (ofZ_nonzero a Na Ha). reflexivity.
  - rewrite (ofZ_nonzero a Na Ha), (ofZ_nonzero b Nb Hb).
    destruct (mant_value (Z.abs a) ltac:(lia)) as [_ Hea].
    destruct (mant_value (Z.abs b) ltac:(lia)) as [_ Heb].
    cbn [sub SFsub].
    set (ez := Z.min (expo (Z.abs a)) (expo (Z.abs b))).
    rewrite (aligned_value a ez), (aligned_value b ez) by lia.
    rewrite <- Z.mul_sub_distr_r.
    apply binary_normalize_scaled; lia.
Qed.

(** The sign given to the rounding does not change the magnitude. *)
Lemma abs_binary_round (s s' : bool) (m : positive) (e : Z) :
  abs (binary_round prec emax s m e) = abs (binary_round prec emax s' m e).
Proof.
  unfold binary_round. destruct (shl_align m e _) as [mz ez].
  unfold binary_round_aux. destruct (shr_fexp prec emax (Zpos mz) ez loc_Exact).
  destruct (shr_fexp prec emax _ _ loc_Exact) as [mrs e''].
  destruct (shr_m mrs); try reflexivity.
  destruct (e'' <=? emax - prec); reflexivity.
Qed.

Lemma abs_binary_normalize_opp (m e : Z) :
  abs (binary_normalize prec emax (- m) e false)
  = abs (binary_normalize prec emax m e false).
Proof.
  destruct m; cbn [Z.opp binary_normalize]; [reflexivity| |];
    apply abs_binary_round.
Qed.

Lemma abs_sub_swap (x y : number) : abs (sub x y) = abs (sub y x).
Proof.
  destruct x as [sx|sx| |sx mx ex], y as [sy|sy| |sy my ey];
    try reflexivity; try (destruct sx, sy; reflexivity).
  cbn [sub SFsub]. rewrite (Z.min_comm ey ex).
  rewrite <- abs_binary_normalize_opp. f_equal. f_equal. lia.
Qed.

Lemma sub_diag (x : number) :
  isNaN x = false -> isInfinite x = false -> sub x x = ofZ 0.
Proof.
  destruct x as [[|]| | |s m e]; try discriminate; try reflexivity.
  intros _ _. cbn [sub SFsub]. now rewrite Z.sub_diag.
Qed.

(** NaN absorbs addition. *)
Lemma add_NaN_r (x : number) : add x NaN = NaN.
Proof. destruct x as [[|]|[|]| |]; reflexivity. Qed.

Lemma fold_add_NaN (l : list number) : fold_left add l NaN = NaN.
Proof. induction l as [|y l IH]; [reflexivity|exact IH]. Qed.

Lemma fold_add_In_NaN (l : list number) (first : number) :
  In NaN l -> fold_left add l first = NaN.
Proof.
  revert first. induction l as [|y l IH]; intros first; [contradiction|].
  intros [->|H]; cbn [fold_left].
  - rewrite add_NaN_r. apply fold_add_NaN.
  - now apply IH.
Qed.

Lemma mean_In_NaN (data : list number) : In NaN data -> mean data = NaN.
Proof.
  destruct data as [|first rest]; [contradiction|]. cbn [mean].
  intros [->|Hin].
  - now rewrite fold_add_NaN.
  - now rewrite (fold_add_In_NaN _ _ Hin).
Qed.

End SignedFacts.

(* ================================================================== *)
(** ** Commands and failures *)

Module TraceFacts.

Import MFacts.

Lemma runsUntilFailure_ret (host : Host) {A} (a : A) :
  runsUntilFailure host (ret a).
Proof. constructor. Qed.

Lemma runsUntilFailure_throw (host : Host) {A} (e : exn) :
  (forall command, e <> ExecError command) ->
  runsUntilFailure host (@throw A e).
Proof.
  intros He. unfold runsUntilFailure, outcome, commands, throw. cbn [fst snd].
  destruct e as [message|command|pattern|];
    [constructor|now destruct (He command)|constructor|constructor].
Qed.

Lemma runsUntilFailure_bind (host : Host) {A B} (m : M A) (k : A -> M B) :
  runsUntilFailure host m -> (forall a, runsUntilFailure host (k a)) ->
  runsUntilFailure host (bind m k).
Proof.
  unfold runsUntilFailure. intros Hm Hk.
  rewrite outcome_bind, commands_bind.
  destruct (outcome m) as [e|a]; [exact Hm|].
  specialize (Hk a).
  destruct (outcome (k a)) as [[message|command|pattern|]|b];
    try (apply Forall_app; split; assumption).
  destruct Hk as (Hnone & before & Hc & Hb). split; [exact Hnone|].
  exists (commands m ++ before)%list. rewrite Hc, app_assoc.
  split; [reflexivity|]. apply Forall_app; split; assumption.
Qed.

Section WithHost.

Variable host : Host.

Lemma runShellCommand_eq (path command : string) :
  runShellCommand host path command =
  ([("cd " ++ path ++ " && " ++ command)%string],
   match exec host ("cd " ++ path ++ " && " ++ command) with
   | Some stdout => inr stdout
   | None => inl (ExecError ("cd " ++ path ++ " && " ++ command))
   end).
Proof. reflexivity. Qed.

Lemma runsUntilFailure_runShellCommand (path command : string) :
  runsUntilFailure host (runShellCommand host path command).
Proof.
  rewrite runShellCommand_eq. unfold runsUntilFailure, outcome, commands.
  cbn [fst snd].
  destruct (exec host _) as [stdout|] eqn:E.
  - constructor; [|constructor]. unfold answered. congruence.
  - split; [exact E|]. exists []. split; [reflexivity|constructor].
Qed.

Lemma runsUntilFailure_commitTimes (path : string)
    (cherryCommits : list string) (commitDates : list number) :
  runsUntilFailure host (commitTimes host path cherryCommits commitDates).
Proof.
  revert commitDates.
  induction cherryCommits as [|cherryCommit rest IH]; intros commitDates;
    cbn [commitTimes]; [apply runsUntilFailure_ret|].
  destruct (startsWith "+" cherryCommit); [|apply IH].
  apply runsUntilFailure_bind; [|intros; apply IH].
  apply runsUntilFailure_bind; [apply runsUntilFailure_runShellCommand|].
  intros; apply runsUntilFailure_ret.
Qed.

Lemma runsUntilFailure_getDurationsForRelease (path upstream head : string)
    (releaseDate : number) :
  runsUntilFailure host
    (getDurationsForRelease host path upstream head releaseDate).
Proof.
  apply runsUntilFailure_bind; [apply runsUntilFailure_runShellCommand|].
  intros commitsDiff.
  apply runsUntilFailure_bind; [apply runsUntilFailure_commitTimes|].
  intros; apply runsUntilFailure_ret.
Qed.

Lemma runsUntilFailure_releaseLoop (path : string) (startDate : number)
    (pairs : list (option TagRecord * option TagRecord))
    (durationsData : list number) (n : nat) :
  runsUntilFailure host (releaseLoop host path startDate pairs durationsData n).
Proof.
  revert durationsData n.
  induction pairs as [|release rest IH]; intros durationsData n;
    cbn [releaseLoop]; [apply runsUntilFailure_ret|].
  destruct (negb (inPeriod startDate release)); [apply IH|].
  destruct release as [[oldRelease|] [currentRelease|]];
    try (apply runsUntilFailure_throw; discriminate).
  apply runsUntilFailure_bind;
    [apply runsUntilFailure_getDurationsForRelease|].
  intros; apply IH.
Qed.

Lemma runsUntilFailure_selectReleases (endDate : number) (regexp : arg)
    (tagLines : list string) (acc : list TagRecord) :
  runsUntilFailure host (selectReleases host endDate regexp tagLines acc).
Proof.
  revert acc. induction tagLines as [|tagLine rest IH]; intros acc;
    cbn [selectReleases]; [apply runsUntilFailure_ret|].
  destruct (parseTagLine host tagLine) as [r|]; [|apply IH].
  destruct (gt (date r) endDate); [apply IH|].
  apply runsUntilFailure_bind.
  - unfold String_match. destruct (RegExp_create host regexp).
    + apply runsUntilFailure_ret.
    + apply runsUntilFailure_throw; discriminate.
  - intros []; apply IH.
Qed.

Lemma runsUntilFailure_calculateCycleTime (path tagsData : string)
    (startDate endDate : number) (regexp : arg) :
  runsUntilFailure host
    (calculateCycleTime host path tagsData startDate endDate regexp).
Proof.
  apply runsUntilFailure_bind; [apply runsUntilFailure_selectReleases|].
  intros releases.
  apply runsUntilFailure_bind; [apply runsUntilFailure_releaseLoop|].
  intros; apply runsUntilFailure_ret.
Qed.

End WithHost.

End TraceFacts.

(** X1.  Whatever the arguments, a run of [execute], of
    [calculateCycleTime] or of the duration extractor stops at the first
    command that fails: if it ends by the failure of a command, that command
    is the last one run and every command before it was answered; if it
    ends in any other way, every command it ran was answered. *)
Theorem run_stops_at_first_failure (host : Host)
    (startDateString endDateString regexp : arg) (isLightweight : bool)
    (path : arg) (repository tagsData upstream head : string)
    (startDate endDate releaseDate : number) :
  runsUntilFailure host
    (execute host startDateString endDateString regexp isLightweight path) /\
  runsUntilFailure host
    (calculateCycleTime host repository tagsData startDate endDate regexp) /\
  runsUntilFailure host
    (getDurationsForRelease host repository upstream head releaseDate).
Proof.
  split; [|split].
  - unfold execute.
    destruct (negb (truthy_arg path));
      [apply TraceFacts.runsUntilFailure_throw; discriminate|].
    destruct (negb (truthy _));
      [apply TraceFacts.runsUntilFailure_throw; discriminate|].
    apply TraceFacts.runsUntilFailure_bind;
      [apply TraceFacts.runsUntilFailure_runShellCommand|].
    intros releaseTags.
    destruct (negb (truthy_arg endDateString));
      [apply TraceFacts.runsUntilFailure_throw; discriminate|].
    apply TraceFacts.runsUntilFailure_calculateCycleTime.
  - apply TraceFacts.runsUntilFailure_calculateCycleTime.
  - apply TraceFacts.runsUntilFailure_getDurationsForRelease.
Qed.

(* ================================================================== *)
(** ** The kinds of failure *)

Module FailureFacts.

Import MFacts.

Lemma failsWith_ret {A} (P : exn -> Prop) (a : A) : failsWith P (ret a).
Proof. intros e. discriminate. Qed.

Lemma failsWith_bind {A B} (P : exn -> Prop) (m : M A) (k : A -> M B) :
  failsWith P m -> (forall a, failsWith P (k a)) -> failsWith P (bind m k).
Proof.
  intros Hm Hk e. rewrite outcome_bind.
  destruct (outcome m) as [e'|a] eqn:E; [|apply Hk].
  intros [= <-]. now apply Hm.
Qed.

Lemma failsWith_impl {A} (P Q : exn -> Prop) (m : M A) :
  (forall e, P e -> Q e) -> failsWith P m -> failsWith Q m.
Proof. intros H Hm e He. apply H, Hm, He. Qed.

Section WithHost.

Variable host : Host.

Lemma getCommitTime_eq (path : string) (sha : arg) :
  getCommitTime host path sha =
  ([logCommand path sha],
   match exec host (logCommand path sha) with
   | Some stdout => inr (Date_parse host stdout)
   | None => inl (ExecError (logCommand path sha))
   end).
Proof.
  unfold getCommitTime, logCommand, runShellCommand.
  destruct (exec host _); reflexivity.
Qed.

Lemma getCherryForRelease_eq (path upstream head : string) :
  getCherryForRelease host path upstream head =
  ([cherryCommand path upstream head],
   match exec host (cherryCommand path upstream head) with
   | Some stdout => inr stdout
   | None => inl (ExecError (cherryCommand path upstream head))
   end).
Proof. reflexivity. Qed.

Lemma failsWith_runShellCommand (path command : string) :
  failsWith isExecError (runShellCommand host path command).
Proof.
  intros e. unfold runShellCommand, outcome. cbn [snd].
  destruct (exec host _); [discriminate|]. intros [= <-]. eexists; reflexivity.
Qed.

Lemma failsWith_commitTimes (path : string) (cherryCommits : list string)
    (commitDates : list number) :
  failsWith isExecError (commitTimes host path cherryCommits commitDates).
Proof.
  revert commitDates.
  induction cherryCommits as [|cherryCommit rest IH]; intros commitDates;
    cbn [commitTimes]; [apply failsWith_ret|].
  destruct (startsWith "+" cherryCommit); [|apply IH].
  apply failsWith_bind; [|intros; apply IH].
  apply failsWith_bind; [apply failsWith_runShellCommand|].
  intros; apply failsWith_ret.
Qed.

Lemma failsWith_getDurationsForRelease (path upstream head : string)
    (releaseDate : number) :
  failsWith isExecError
    (getDurationsForRelease host path upstream head releaseDate).
Proof.
  apply failsWith_bind; [apply failsWith_runShellCommand|]. intros commitsDiff.
  apply failsWith_bind; [apply failsWith_commitTimes|].
  intros; apply failsWith_ret.
Qed.

(** With the earlier release of every pair present, the loop never reads a
    property of [undefined]. *)
Lemma failsWith_releaseLoop (path : string) (startDate : number)
    (pairs : list (option TagRecord * option TagRecord))
    (durationsData : list number) (n : nat) :
  Forall (fun release => fst release <> None) pairs ->
  failsWith isExecError
    (releaseLoop host path startDate pairs durationsData n).
Proof.
  intros Hall. revert durationsData n.
  induction Hall as [|release rest Hfst Hrest IH]; intros durationsData n;
    cbn [releaseLoop]; [apply failsWith_ret|].
  destruct (inPeriod startDate release) eqn:Hin; cbn [negb]; [|apply IH].
  destruct release as [[oldRelease|] [currentRelease|]];
    try discriminate; try (now destruct Hfst).
  apply failsWith_bind; [apply failsWith_getDurationsForRelease|].
  intros; apply IH.
Qed.

Lemma failsWith_selectReleases (endDate : number) (regexp : arg)
    (tagLines : list string) (acc : list TagRecord) :
  failsWith (fun e => e = SyntaxError regexp /\ RegExp_create host regexp = None)
    (selectReleases host endDate regexp tagLines acc).
Proof.
  revert acc. induction tagLines as [|tagLine rest IH]; intros acc;
    cbn [selectReleases]; [apply failsWith_ret|].
  destruct (parseTagLine host tagLine) as [r|]; [|apply IH].
  destruct (gt (date r) endDate); [apply IH|].
  apply failsWith_bind.
  - unfold String_match.
    destruct (RegExp_create host regexp) eqn:E; [apply failsWith_ret|].
    intros e [= <-]. auto.
  - intros []; apply IH.
Qed.

End WithHost.

Lemma releasePairs_earlier_present (releases : list TagRecord) :
  Forall (fun release => fst release <> None) (releasePairs releases).
Proof.
  apply Forall_forall. intros release Hin.
  apply In_nth_error in Hin as [i Hi].
  rewrite PairFacts.nth_error_releasePairs in Hi.
  destruct (i <? List.length releases)%nat eqn:Hlt; [|discriminate].
  injection Hi as <-. cbn [fst]. apply nth_error_Some.
  now apply Nat.ltb_lt.
Qed.

Lemma failsWith_calculateCycleTime (host : Host) (path tagsData : string)
    (startDate endDate : number) (regexp : arg) :
  failsWith (fun e => (e = SyntaxError regexp /\
                       RegExp_create host regexp = None) \/ isExecError e)
    (calculateCycleTime host path tagsData startDate endDate regexp).
Proof.
  apply failsWith_bind.
  - eapply failsWith_impl; [|apply failsWith_selectReleases]. cbn. auto.
  - intros releases. apply failsWith_bind; [|intros; apply failsWith_ret].
    eapply failsWith_impl;
      [|apply failsWith_releaseLoop, releasePairs_earlier_present].
    cbn. auto.
Qed.

End FailureFacts.

(** X2.  [execute] fails in five ways only: by one of its three messages,
    by the pattern not being a regular expression, or by the failure of a
    command; in particular it never fails by reading a property of
    [undefined].  [calculateCycleTime] fails in the last two ways only. *)
Theorem execute_fails_in_known_ways (host : Host)
    (startDateString endDateString regexp : arg) (isLightweight : bool)
    (path : arg) (repository tagsData : string) (startDate endDate : number) :
  failsWith
    (fun e =>
       e = Thrown "No path to the Git repository provided" \/
       e = Thrown "Couldn't parse start-date argument" \/
       e = Thrown "Couldn't parse end-date argument" \/
       (e = SyntaxError regexp /\ RegExp_create host regexp = None) \/
       isExecError e)
    (execute host startDateString endDateString regexp isLightweight path) /\
  failsWith
    (fun e =>
       (e = SyntaxError regexp /\ RegExp_create host regexp = None) \/
       isExecError e)
    (calculateCycleTime host repository tagsData startDate endDate regexp).
Proof.
  split; [|apply FailureFacts.failsWith_calculateCycleTime].
  unfold execute.
  destruct (negb (truthy_arg path)); [intros e [= <-]; auto|].
  destruct (negb (truthy _)); [intros e [= <-]; auto|].
  apply FailureFacts.failsWith_bind.
  - eapply FailureFacts.failsWith_impl;
      [|apply FailureFacts.failsWith_runShellCommand]. cbn. auto 6.
  - intros releaseTags.
    destruct (negb (truthy_arg endDateString)); [intros e [= <-]; auto|].
    eapply FailureFacts.failsWith_impl;
      [|apply FailureFacts.failsWith_calculateCycleTime].
    cbn. intros e [H|H]; auto 6.
Qed.

(* ================================================================== *)
(** ** What the extractor runs *)

Module ExtractionFacts.

Import MFacts.

Lemma bind_value {A B} (t : list string) (a : A) (k : A -> M B) :
  bind (t, inr a) k = ((t ++ commands (k a))%list, outcome (k a)).
Proof. unfold bind. destruct (k a); reflexivity. Qed.

Lemma outcome_pair {A} (t : list string) (r : exn + A) : outcome (t, r) = r.
Proof. reflexivity. Qed.

Lemma commands_pair {A} (t : list string) (r : exn + A) : commands (t, r) = t.
Proof. reflexivity. Qed.

Section WithHost.

Variable host : Host.

(** The loop returns exactly when the timestamp of every kept line is
    answered; it has then run one command per kept line, in their order. *)
Lemma commitTimes_returns (path : string) (cherryCommits : list string)
    (commitDates : list number) :
  Forall (fun cherryCommit =>
            answered host (logCommand path (cherrySha cherryCommit)))
    (filter (startsWith "+") cherryCommits) ->
  exists stamps,
    List.length stamps
    = List.length (filter (startsWith "+") cherryCommits) /\
    commitTimes host path cherryCommits commitDates
    = (map (fun cherryCommit => logCommand path (cherrySha cherryCommit))
         (filter (startsWith "+") cherryCommits),
       inr (commitDates ++ stamps)%list).
Proof.
  revert commitDates.
  induction cherryCommits as [|cherryCommit rest IH]; intros commitDates;
    cbn [filter commitTimes].
  - intros _. exists []. now rewrite app_nil_r.
  - destruct (startsWith "+" cherryCommit); [|apply IH].
    intros H. inversion H as [|? ? Hhead Hrest]; subst.
    rewrite FailureFacts.getCommitTime_eq.
    destruct (exec host (logCommand path (cherrySha cherryCommit)))
      as [stdout|] eqn:E; [|now destruct Hhead].
    destruct (IH (commitDates ++ [Date_parse host stdout])%list Hrest)
      as (stamps & Hlen & Heq).
    exists (Date_parse host stdout :: stamps). split; [cbn; lia|].
    unfold bind. rewrite Heq, <- app_assoc. reflexivity.
Qed.

Lemma commitTimes_answered (path : string) (cherryCommits : list string)
    (commitDates result : list number) :
  outcome (commitTimes host path cherryCommits commitDates) = inr result ->
  Forall (fun cherryCommit =>
            answered host (logCommand path (cherrySha cherryCommit)))
    (filter (startsWith "+") cherryCommits).
Proof.
  revert commitDates.
  induction cherryCommits as [|cherryCommit rest IH]; intros commitDates;
    cbn [filter commitTimes]; [constructor|].
  destruct (startsWith "+" cherryCommit); [|apply IH].
  rewrite FailureFacts.getCommitTime_eq, outcome_bind.
  unfold outcome at 2. cbn [snd].
  destruct (exec host (logCommand path (cherrySha cherryCommit)))
    as [stdout|] eqn:E; [|discriminate].
  intros H%IH. constructor; [|exact H]. unfold answered. congruence.
Qed.

End WithHost.

End ExtractionFacts.

(** X3.  The duration extractor returns durations exactly when the diff of
    the two releases is answered and the timestamp of the commit of every
    kept line is answered. *)
Theorem extraction_returns_iff (host : Host) (path upstream head : string)
    (releaseDate : number) :
  (exists durations,
      outcome (getDurationsForRelease host path upstream head releaseDate)
      = inr durations) <->
  (exists commitsDiff,
      exec host (cherryCommand path upstream head) = Some commitsDiff /\
      Forall (fun cherryCommit =>
                answered host (logCommand path (cherrySha cherryCommit)))
        (keptLines commitsDiff)).
Proof.
  unfold getDurationsForRelease.
  rewrite FailureFacts.getCherryForRelease_eq.
  destruct (exec host (cherryCommand path upstream head)) as [commitsDiff|].
  - rewrite ExtractionFacts.bind_value, ExtractionFacts.outcome_pair,
      MFacts.outcome_bind.
    split.
    + intros [durations H]. exists commitsDiff. split; [reflexivity|].
      destruct (outcome (commitTimes host path (split LF commitsDiff) []))
        as [e|commitDates] eqn:E; [discriminate|].
      exact (ExtractionFacts.commitTimes_answered _ _ _ _ _ E).
    + intros (diff & [= <-] & Hall).
      destruct (ExtractionFacts.commitTimes_returns host path _ [] Hall)
        as (stamps & _ & Heq).
      fold (keptLines commitsDiff) in Heq. rewrite Heq.
      rewrite ExtractionFacts.outcome_pair. eexists. reflexivity.
  - split; [intros [durations H]; discriminate|].
    intros (diff & H & _). discriminate.
Qed.

(** X4.  When the extractor returns, it has run the diff of the two
    releases and then, for each kept line in the order of the diff, the
    query of the timestamp of its commit, and nothing else; it returns one
    duration per kept line. *)
Theorem extraction_runs_one_query_per_kept_line (host : Host)
    (path upstream head : string) (releaseDate : number)
    (durations : list number) :
  outcome (getDurationsForRelease host path upstream head releaseDate)
  = inr durations ->
  exists commitsDiff,
    exec host (cherryCommand path upstream head) = Some commitsDiff /\
    commands (getDurationsForRelease host path upstream head releaseDate)
    = cherryCommand path upstream head
      :: map (fun cherryCommit => logCommand path (cherrySha cherryCommit))
           (keptLines commitsDiff) /\
    List.length durations = List.length (keptLines commitsDiff).
Proof.
  unfold getDurationsForRelease.
  rewrite FailureFacts.getCherryForRelease_eq.
  destruct (exec host (cherryCommand path upstream head)) as [commitsDiff|];
    [|discriminate].
  rewrite ExtractionFacts.bind_value, ExtractionFacts.outcome_pair,
    ExtractionFacts.commands_pair.
  intros H. exists commitsDiff. split; [reflexivity|].
  pose proof H as H'. rewrite MFacts.outcome_bind in H'.
  destruct (outcome (commitTimes host path (split LF commitsDiff) []))
    as [e|commitDates] eqn:E; [discriminate|].
  apply ExtractionFacts.commitTimes_answered in E.
  destruct (ExtractionFacts.commitTimes_returns host path _ [] E)
    as (stamps & Hlen & Heq).
  fold (keptLines commitsDiff) in Heq, Hlen.
  rewrite Heq in H |- *. rewrite ExtractionFacts.bind_value in H |- *.
  rewrite ExtractionFacts.outcome_pair in H.
  rewrite ExtractionFacts.commands_pair.
  unfold ret, outcome, commands in *. cbn [fst snd app] in *.
  injection H as <-. rewrite app_nil_r, length_map. auto.
Qed.

(** The pair ([v2], [v3]) of the reference repository. *)
Lemma extraction_runs_one_query_per_kept_line_witness :
  exists commitsDiff,
    exec (Reference.host Reference.repo) (cherryCommand "/repo" "v2" "v3")
    = Some commitsDiff /\
    commands (getDurationsForRelease (Reference.host Reference.repo) "/repo"
                "v2" "v3" (ofZ 1674259200000))
    = cherryCommand "/repo" "v2" "v3"
      :: map (fun cherryCommit => logCommand "/repo" (cherrySha cherryCommit))
           (keptLines commitsDiff) /\
    List.length [ofZ 86400000] = List.length (keptLines commitsDiff).
Proof.
  apply (extraction_runs_one_query_per_kept_line
           (Reference.host Reference.repo) "/repo" "v2" "v3"
           (ofZ 1674259200000) [ofZ 86400000]).
  vm_compute. reflexivity.
Defined.

(* ================================================================== *)
(** ** More on the release selector *)

Module SelectorFacts.

Import MFacts.

Lemma split_trailing (sep : ascii) (s : string) :
  split sep (s ++ String sep EmptyString)
  = (split sep s ++ [EmptyString])%list.
Proof.
  induction s as [|c s IH]; cbn [append split].
  - rewrite Ascii.eqb_refl. reflexivity.
  - rewrite IH. destruct (Ascii.eqb c sep); [reflexivity|].
    pose proof (StringFacts.split_nonempty sep s) as Hne.
    destruct (split sep s) as [|piece pieces]; [contradiction|reflexivity].
Qed.

Section WithHost.

Variable host : Host.

Lemma selectReleases_nonEmptyLines (endDate : number) (regexp : arg)
    (tagLines : list string) (acc : list TagRecord) :
  selectReleases host endDate regexp (nonEmptyLines tagLines) acc
  = selectReleases host endDate regexp tagLines acc.
Proof.
  revert acc. unfold nonEmptyLines.
  induction tagLines as [|tagLine rest IH]; intros acc; [reflexivity|].
  cbn [filter].
  destruct (Nat.eqb (String.length tagLine) 0) eqn:E;
    cbn [negb selectReleases]; unfold parseTagLine; rewrite E; [apply IH|].
  cbn [tag date].
  destruct (gt _ endDate); [apply IH|].
  destruct (String_match host _ regexp) as [t [e|[|]]];
    unfold bind; rewrite ?IH; reflexivity.
Qed.

(** Without a regular expression, the selector throws at the first record
    that is not after the end date, and returns nothing new when there is
    none. *)
Lemma selectReleases_no_pattern (endDate : number) (regexp : arg)
    (tagLines : list string) (acc : list TagRecord) :
  RegExp_create host regexp = None ->
  (outcome (selectReleases host endDate regexp tagLines acc)
   = inl (SyntaxError regexp) /\
   Exists (fun r => gt (date r) endDate = false) (parsedRecords host tagLines))
  \/
  (outcome (selectReleases host endDate regexp tagLines acc) = inr acc /\
   Forall (fun r => gt (date r) endDate = true) (parsedRecords host tagLines)).
Proof.
  intros Hre. revert acc.
  induction tagLines as [|tagLine rest IH]; intros acc;
    cbn [selectReleases parsedRecords flat_map].
  - right. split; [reflexivity|constructor].
  - destruct (parseTagLine host tagLine) as [r|]; cbn [app].
    + destruct (gt (date r) endDate) eqn:Hgt.
      * destruct (IH acc) as [[Ho He]|[Ho Ha]]; [left|right]; split; auto.
      * left. split; [|now constructor].
        unfold String_match. rewrite Hre. reflexivity.
    + apply IH.
Qed.

End WithHost.

End SelectorFacts.

(** X5.  The selector throws exactly when the pattern is not a regular
    expression and some tag line has a record that is not after the end
    date; the error is then the syntax error of the pattern.  With no such
    record a pattern that does not compile goes unnoticed. *)
Theorem selector_throws_iff (host : Host) (endDate : number) (regexp : arg)
    (tagLines : list string) (e : exn) :
  outcome (selectReleases host endDate regexp tagLines []) = inl e <->
  e = SyntaxError regexp /\
  RegExp_create host regexp = None /\
  Exists (fun r => gt (date r) endDate = false) (parsedRecords host tagLines).
Proof.
  split.
  - intros H.
    destruct (FailureFacts.failsWith_selectReleases host endDate regexp
                tagLines [] e H) as [-> Hre].
    repeat split; [exact Hre|].
    destruct (SelectorFacts.selectReleases_no_pattern host endDate regexp
                tagLines [] Hre) as [[_ Hex]|[Ho _]]; [exact Hex|congruence].
  - intros (-> & Hre & Hex).
    destruct (SelectorFacts.selectReleases_no_pattern host endDate regexp
                tagLines [] Hre) as [[Ho _]|[_ Hall]]; [exact Ho|].
    exfalso. apply Exists_exists in Hex as (r & Hin & Hr).
    rewrite Forall_forall in Hall. specialize (Hall r Hin). congruence.
Qed.

(** X6.  The result depends on the tag listing through its non-empty lines
    only: two listings with the same non-empty lines give the same run, and
    a line feed at the end of the listing changes nothing. *)
Theorem empty_tag_lines_are_ignored (host : Host) (path tagsData : string)
    (startDate endDate : number) (regexp : arg) :
  (forall tagsData',
      nonEmptyLines (split LF tagsData') = nonEmptyLines (split LF tagsData) ->
      calculateCycleTime host path tagsData' startDate endDate regexp
      = calculateCycleTime host path tagsData startDate endDate regexp) /\
  calculateCycleTime host path (tagsData ++ String LF EmptyString)
    startDate endDate regexp
  = calculateCycleTime host path tagsData startDate endDate regexp.
Proof.
  assert (G : forall tagsData',
             nonEmptyLines (split LF tagsData')
             = nonEmptyLines (split LF tagsData) ->
             calculateCycleTime host path tagsData' startDate endDate regexp
             = calculateCycleTime host path tagsData startDate endDate regexp).
  { intros tagsData' H. unfold calculateCycleTime.
    rewrite <- (SelectorFacts.selectReleases_nonEmptyLines host _ _
                  (split LF tagsData')).
    rewrite <- (SelectorFacts.selectReleases_nonEmptyLines host _ _
                  (split LF tagsData)).
    now rewrite H. }
  split; [exact G|]. apply G.
  rewrite SelectorFacts.split_trailing. unfold nonEmptyLines.
  rewrite filter_app. cbn. apply app_nil_r.
Qed.

(** X7.  With an end date that is NaN the selector drops no release for its
    date: it returns every record whose name the pattern accepts. *)
Theorem selector_unbounded_when_end_is_NaN (host : Host) (regexp : arg)
    (test : string -> bool) (tagLines : list string) :
  RegExp_create host regexp = Some test ->
  selectReleases host NaN regexp tagLines []
  = ret (filter (fun r => test (tag r)) (parsedRecords host tagLines)).
Proof.
  intros Hre.
  rewrite (LoopFacts.selectReleases_filter host NaN regexp test tagLines []
             Hre).
  reflexivity.
Qed.

(** The tags of the reference repository with the end date [someday]. *)
Lemma selector_unbounded_when_end_is_NaN_witness :
  selectReleases (Reference.host Reference.repo) NaN (Some "v")
    (split LF Reference.tagsOutput) []
  = ret (filter (fun r => Reference.includes "v" (tag r))
           (parsedRecords (Reference.host Reference.repo)
              (split LF Reference.tagsOutput))).
Proof.
  apply (selector_unbounded_when_end_is_NaN (Reference.host Reference.repo)
           (Some "v") (Reference.includes "v")
           (split LF Reference.tagsOutput)).
  reflexivity.
Defined.

(* ================================================================== *)
(** ** The report: count and grand mean *)

Module ReportFacts.

Import MFacts.

Lemma filter_length_lt {A} (f : A -> bool) (l : list A) (x : A) :
  In x l -> f x = false ->
  (List.length (filter f l) < List.length l)%nat.
Proof.
  induction l as [|y l IH]; [contradiction|]. intros [->|Hin] Hx; cbn.
  - rewrite Hx. pose proof (filter_length_le f l). lia.
  - specialize (IH Hin Hx). destruct (f y); cbn; lia.
Qed.

Lemma Forall2_In_l {A B} (R : A -> B -> Prop) (l : list A) (l' : list B)
    (x : A) :
  Forall2 R l l' -> In x l -> exists y, In y l' /\ R x y.
Proof.
  induction 1 as [|a b l l' Hab Hrest IH]; [contradiction|].
  intros [->|Hin].
  - exists b. split; [now left|exact Hab].
  - destruct (IH Hin) as (y & Hy & Hxy). exists y. split; [now right|exact Hxy].
Qed.

(** At most all pairs but the last are in the period. *)
Lemma inPeriod_count (startDate : number) (releases : list TagRecord) :
  (List.length (filter (inPeriod startDate) (releasePairs releases))
   <= List.length releases - 1)%nat.
Proof.
  destruct (List.length releases) as [|n] eqn:Hlen.
  - pose proof (filter_length_le (inPeriod startDate) (releasePairs releases)).
    rewrite PairFacts.length_releasePairs in *. lia.
  - pose proof (PairFacts.nth_error_releasePairs releases n) as Hn.
    rewrite Hlen in Hn.
    replace (n <? S n)%nat with true in Hn
      by (symmetry; apply Nat.ltb_lt; lia).
    assert (Hnone : nth_error releases (S n) = None)
      by (apply nth_error_None; lia).
    rewrite Hnone in Hn. apply nth_error_In in Hn.
    pose proof (filter_length_lt (inPeriod startDate) _ _ Hn eq_refl) as Hlt.
    rewrite PairFacts.length_releasePairs in Hlt. lia.
Qed.

Section WithHost.

Variable host : Host.

(** A loop that returns has gathered the durations of the pairs in the
    period, pair after pair. *)
Lemma releaseLoop_durations (path : string) (startDate : number)
    (pairs : list (option TagRecord * option TagRecord))
    (durationsData : list number) (n : nat) (totals : list number * nat) :
  outcome (releaseLoop host path startDate pairs durationsData n) = inr totals ->
  exists perPair,
    Forall2 (fun release durations =>
               outcome (extraction host path release) = inr durations)
      (filter (inPeriod startDate) pairs) perPair /\
    fst totals = (durationsData ++ List.concat perPair)%list.
Proof.
  revert durationsData n.
  induction pairs as [|release rest IH]; intros durationsData n;
    cbn [releaseLoop filter].
  - unfold outcome, ret. cbn [snd]. intros [= <-]. exists [].
    split; [constructor|]. cbn. now rewrite app_nil_r.
  - destruct (inPeriod startDate release) eqn:Hin; cbn [negb]; [|apply IH].
    destruct release as [[oldRelease|] [currentRelease|]];
      try (unfold outcome, throw; cbn; discriminate).
    rewrite outcome_bind.
    destruct (outcome (getDurationsForRelease host path (tag oldRelease)
                         (tag currentRelease) (date currentRelease)))
      as [e|durations] eqn:Hd; [discriminate|].
    intros (perPair & Hall & Hfst)%IH. exists (durations :: perPair).
    split; [constructor; [exact Hd|exact Hall]|].
    rewrite Hfst. cbn [List.concat]. now rewrite app_assoc.
Qed.

(** A run that returns has selected releases and gathered the durations of
    the pairs in the period. *)
Lemma calculateCycleTime_returns (path tagsData : string)
    (startDate endDate : number) (regexp : arg) (result : CycleTimeResult) :
  outcome (calculateCycleTime host path tagsData startDate endDate regexp)
  = inr result ->
  exists releases perPair,
    outcome (selectReleases host endDate regexp (split LF tagsData) [])
    = inr releases /\
    Forall2 (fun release durations =>
               outcome (extraction host path release) = inr durations)
      (filter (inPeriod startDate) (releasePairs releases)) perPair /\
    cycleTime result = hours (mean (List.concat perPair)) /\
    numberOfReleases result
    = List.length (filter (inPeriod startDate) (releasePairs releases)).
Proof.
  unfold calculateCycleTime. rewrite outcome_bind.
  destruct (outcome (selectReleases host endDate regexp (split LF tagsData) []))
    as [e|releases]; [discriminate|].
  fold (releasePairs releases). rewrite outcome_bind.
  destruct (outcome (releaseLoop host path startDate (releasePairs releases)
                       [] 0)) as [e|totals] eqn:Hloop; [discriminate|].
  unfold outcome at 1, ret. cbn [snd]. intros [= <-].
  destruct (releaseLoop_durations _ _ _ _ _ _ Hloop) as (perPair & Hall & Hfst).
  exists releases, perPair. cbn [cycleTime numberOfReleases app] in *.
  rewrite Hfst, (LoopFacts.releaseLoop_count _ _ _ _ _ _ _ Hloop). auto.
Qed.

(** The durations of an extraction are distances from the release date. *)
Lemma extraction_shape (path upstream head : string) (releaseDate : number)
    (durations : list number) :
  outcome (getDurationsForRelease host path upstream head releaseDate)
  = inr durations ->
  exists stamps, durations = map (fun t => abs (sub releaseDate t)) stamps.
Proof.
  unfold getDurationsForRelease. rewrite outcome_bind.
  destruct (outcome (getCherryForRelease host path upstream head))
    as [e|commitsDiff]; [discriminate|].
  rewrite outcome_bind.
  destruct (outcome (commitTimes host path (split LF commitsDiff) []))
    as [e|commitDates]; [discriminate|].
  unfold outcome, ret. cbn [snd]. intros [= <-]. eauto.
Qed.

End WithHost.

End ReportFacts.



(** X9.  The cycle time a run returns is the mean, in hours, of all the
    durations of all the pairs in the period taken together, pair after
    pair in the order of the releases (it is not the mean of the means of
    the pairs); the count is the number of these pairs. *)
Theorem cycle_time_is_grand_mean (host : Host) (path tagsData : string)
    (startDate endDate : number) (regexp : arg) (result : CycleTimeResult) :
  outcome (calculateCycleTime host path tagsData startDate endDate regexp)
  = inr result ->
  exists releases perPair,
    outcome (selectReleases host endDate regexp (split LF tagsData) [])
    = inr releases /\
    Forall2 (fun release durations =>
               outcome (extraction host path release) = inr durations)
      (filter (inPeriod startDate) (releasePairs releases)) perPair /\
    cycleTime result = hours (mean (List.concat perPair)) /\
    numberOfReleases result = List.length perPair.
Proof.
  intros (releases & perPair & Hsel & Hall & Hmean & Hcount)
    %ReportFacts.calculateCycleTime_returns.
  exists releases, perPair. repeat split; try assumption.
  rewrite Hcount. exact (Forall2_length Hall).
Qed.

(** The reference repository with three releases: durations of one and two
    days for the first pair and zero for the second. *)
Lemma cycle_time_is_grand_mean_witness :
  let h := Reference.host Reference.releases in
  let tagsData := Reference.unlines ["v1 2023-01-01T00:00:00Z";
                                     "v2 2023-01-11T00:00:00Z";
                                     "v3 2023-01-21T00:00:00Z"] in
  let result := {| cycleTime := ofZ 24; numberOfReleases := 2 |} in
  exists releases perPair,
    outcome (selectReleases h (ofZ 1674691200000) (Some "v")
               (split LF tagsData) [])
    = inr releases /\
    Forall2 (fun release durations =>
               outcome (extraction h "/repo" release) = inr durations)
      (filter (inPeriod (ofZ 1672963200000)) (releasePairs releases))
      perPair /\
    cycleTime result = hours (mean (List.concat perPair)) /\
    numberOfReleases result = List.length perPair.
Proof.
  apply (cycle_time_is_grand_mean (Reference.host Reference.releases) "/repo"
           (Reference.unlines ["v1 2023-01-01T00:00:00Z";
                               "v2 2023-01-11T00:00:00Z";
                               "v3 2023-01-21T00:00:00Z"])
           (ofZ 1672963200000) (ofZ 1674691200000) (Some "v")
           {| cycleTime := ofZ 24; numberOfReleases := 2 |}).
  vm_compute. reflexivity.
Defined.

(* ================================================================== *)
(** ** Durations and means as numbers *)

(** X10.  One duration that is NaN makes the mean NaN, and so the cycle
    time in hours: NaN is never averaged away. *)
Theorem mean_of_NaN_is_NaN (data : list number) :
  In NaN data -> mean data = NaN /\ hours (mean data) = NaN.
Proof.
  intros Hin. rewrite (SignedFacts.mean_In_NaN data Hin).
  split; reflexivity.
Qed.

Lemma mean_of_NaN_is_NaN_witness :
  mean [ofZ 3600000; NaN; ofZ 7200000] = NaN /\
  hours (mean [ofZ 3600000; NaN; ofZ 7200000]) = NaN.
Proof.
  apply (mean_of_NaN_is_NaN [ofZ 3600000; NaN; ofZ 7200000]).
  right. left. reflexivity.
Defined.

(** X11.  When a selected release whose date did not parse closes a pair
    that brings at least one commit, the cycle time of the whole run is
    NaN, whatever the other releases are. *)
Theorem nan_release_makes_cycle_time_NaN (host : Host)
    (path tagsData : string) (startDate endDate : number) (regexp : arg)
    (result : CycleTimeResult) (releases : list TagRecord)
    (earlier later : TagRecord) (durations : list number) :
  outcome (calculateCycleTime host path tagsData startDate endDate regexp)
  = inr result ->
  outcome (selectReleases host endDate regexp (split LF tagsData) [])
  = inr releases ->
  In (Some earlier, Some later) (releasePairs releases) ->
  date later = NaN ->
  outcome (extraction host path (Some earlier, Some later)) = inr durations ->
  durations <> [] ->
  cycleTime result = NaN.
Proof.
  intros Hrun Hsel Hin Hdate Hext Hne.
  apply ReportFacts.calculateCycleTime_returns in Hrun
    as (releases' & perPair & Hsel' & Hall & Hmean & _).
  assert (releases' = releases) by congruence. subst releases'.
  assert (Hkept : In (Some earlier, Some later)
                    (filter (inPeriod startDate) (releasePairs releases))).
  { apply filter_In. split; [exact Hin|]. unfold inPeriod. cbn.
    now rewrite Hdate. }
  destruct (ReportFacts.Forall2_In_l _ _ _ _ Hall Hkept) as (ds & Hds & Hout).
  assert (ds = durations) by congruence. subst ds.
  cbn [extraction] in Hext.
  apply ReportFacts.extraction_shape in Hext as [stamps ->].
  rewrite Hmean, SignedFacts.mean_In_NaN; [reflexivity|].
  apply in_concat. eexists. split; [exact Hds|].
  destruct stamps as [|t stamps]; [contradiction|]. left.
  rewrite Hdate. reflexivity.
Qed.

(** The tag [v2] of the reference repository has no date. *)
Lemma nan_release_makes_cycle_time_NaN_witness :
  cycleTime {| cycleTime := NaN; numberOfReleases := 2 |} = NaN.
Proof.
  apply (nan_release_makes_cycle_time_NaN (Reference.host Reference.repo)
           "/repo" Reference.tagsOutput (ofZ 1672531200000)
           (ofZ 1675209600000) (Some "v")
           {| cycleTime := NaN; numberOfReleases := 2 |}
           [ {| tag := "v1"; date := ofZ 1672531200000 |};
             {| tag := "v2"; date := NaN |};
             {| tag := "v3"; date := ofZ 1674259200000 |} ]
           {| tag := "v1"; date := ofZ 1672531200000 |}
           {| tag := "v2"; date := NaN |} [NaN]).
  - vm_compute. reflexivity.
  - vm_compute. reflexivity.
  - vm_compute. left. reflexivity.
  - reflexivity.
  - vm_compute. reflexivity.
  - discriminate.
Defined.

(** X12.  A duration is the same whichever of the two timestamps is the
    later one: a commit dated after its release counts for as much as one
    dated as long before it. *)
Theorem duration_is_symmetric (releaseDate commitDate : number) :
  abs (sub releaseDate commitDate) = abs (sub commitDate releaseDate).
Proof. apply SignedFacts.abs_sub_swap. Qed.

(** X13.  A commit whose timestamp is that of its release has duration
    zero, and a pair all of whose durations are zero has mean zero. *)
Theorem duration_zero_at_release_time (releaseDate : number)
    (durations : list number) :
  isNaN releaseDate = false -> isInfinite releaseDate = false ->
  durations <> [] ->
  (Z.of_nat (List.length durations) < 2 ^ 53)%Z ->
  Forall (fun d => d = abs (sub releaseDate releaseDate)) durations ->
  abs (sub releaseDate releaseDate) = ofZ 0 /\ mean durations = ofZ 0.
Proof.
  intros Hn Hi Hne Hlen Hall.
  rewrite (SignedFacts.sub_diag _ Hn Hi) in *.
  change (abs (ofZ 0)) with (ofZ 0) in *. split; [reflexivity|].
  destruct durations as [|first rest]; [contradiction|].
  inversion Hall as [|? ? Hfirst Hrest]; subst. cbn [mean].
  assert (Hsum : fold_left add rest (ofZ 0) = ofZ 0).
  { clear -Hrest. induction Hrest as [|d rest -> _ IH]; [reflexivity|exact IH]. }
  rewrite Hsum. cbn [List.length] in *.
  assert (Hpos : (0 < Z.of_nat (S (List.length rest)) < 2 ^ 53)%Z)
    by (split; [lia|exact Hlen]).
  rewrite (NumberFacts.ofZ_pos _ Hpos). reflexivity.
Qed.

Lemma duration_zero_at_release_time_witness :
  abs (sub (ofZ 1674259200000) (ofZ 1674259200000)) = ofZ 0 /\
  mean [ofZ 0; ofZ 0] = ofZ 0.
Proof.
  apply (duration_zero_at_release_time (ofZ 1674259200000) [ofZ 0; ofZ 0]).
  - reflexivity.
  - reflexivity.
  - discriminate.
  - vm_compute. reflexivity.
  - repeat constructor.
Defined.

(** X14.  For timestamps that are whole numbers of milliseconds of
    magnitude below [2^53] (every time value is), less than [2^53]
    milliseconds apart, the duration is exactly the distance between them:
    the subtraction does not round. *)
Theorem duration_is_exact (releaseTime commitTime : Z) :
  (Z.abs releaseTime < 2 ^ 53)%Z -> (Z.abs commitTime < 2 ^ 53)%Z ->
  (Z.abs (releaseTime - commitTime) < 2 ^ 53)%Z ->
  abs (sub (ofZ releaseTime) (ofZ commitTime))
  = ofZ (Z.abs (releaseTime - commitTime)).
Proof.
  intros Hr Hc Hd.
  rewrite SignedFacts.sub_ofZ by assumption.
  now apply SignedFacts.abs_ofZ.
Qed.

Lemma duration_is_exact_witness :
  abs (sub (ofZ 1674172800000) (ofZ 1674259200000))
  = ofZ (Z.abs (1674172800000 - 1674259200000)).
Proof.
  apply (duration_is_exact 1674172800000 1674259200000);
    vm_compute; reflexivity.
Defined.

(** X15.  For durations that are whole numbers of milliseconds with a total
    below [2^53], the sum [mean] forms is exact: the mean is the quotient,
    rounded once, of the total by the number of durations. *)
Theorem mean_of_whole_durations (l : list Z) :
  l <> [] -> Forall (fun n => (0 <= n)%Z) l -> (total l < 2 ^ 53)%Z ->
  mean (map ofZ l) = div (ofZ (total l)) (ofZ (Z.of_nat (List.length l))).
Proof.
  intros Hne Hall Hsum. rewrite (MeanFacts.mean_ofZ l Hall Hsum).
  destruct l; [contradiction|reflexivity].
Qed.

Lemma mean_of_whole_durations_witness :
  mean (map ofZ [86400000; 172800000; 0]%Z)
  = div (ofZ (total [86400000; 172800000; 0]%Z))
      (ofZ (Z.of_nat (List.length [86400000; 172800000; 0]%Z))).
Proof.
  apply (mean_of_whole_durations [86400000; 172800000; 0]%Z).
  - discriminate.
  - repeat constructor; lia.
  - vm_compute. reflexivity.
Defined.

(* ================================================================== *)
(** ** [execute], the parser and [zip] at their edges *)

Module EdgeFacts.

Lemma substring_from_app (a b : string) :
  substring_from (String.length a) (a ++ b) = b.
Proof. induction a as [|c a IH]; [now destruct b|exact IH]. Qed.

Lemma nth_error_zip {A B} (a : list A) (b : list B) (i : nat) :
  nth_error (zip a b) i =
  if (i <? Nat.max (List.length b) (List.length a))%nat
  then Some (nth_error a i, nth_error b i)
  else None.
Proof.
  unfold zip. rewrite nth_error_map, nth_error_seq.
  now destruct (i <? Nat.max (List.length b) (List.length a))%nat.
Qed.

End EdgeFacts.


(** X17.  The summary [execute] returns is the result of
    [calculateCycleTime] on the output of the tag listing, with the two
    dates as [Date.parse] gives them; a summary is returned only with a
    path, a start date that is neither NaN nor zero and an end-date string
    that is not empty, whether or not that string parses. *)
Theorem execute_summary (host : Host)
    (startDateString endDateString regexp : arg) (isLightweight : bool)
    (path : arg) (result : CycleTimeResult) :
  outcome (execute host startDateString endDateString regexp isLightweight
             path) = inr result ->
  truthy_arg path = true /\
  truthy (Date_parse host (ToString startDateString)) = true /\
  truthy_arg endDateString = true /\
  exists releaseTags,
    exec host (listCommand path isLightweight) = Some releaseTags /\
    outcome (calculateCycleTime host (ToString path) releaseTags
               (Date_parse host (ToString startDateString))
               (Date_parse host (ToString endDateString)) regexp)
    = inr result.
Proof.
  unfold execute.
  destruct (truthy_arg path); [|discriminate].
  destruct (truthy (Date_parse host (ToString startDateString)));
    [|discriminate].
  cbn [negb]. rewrite TraceFacts.runShellCommand_eq.
  fold (listCommand path isLightweight).
  destruct (exec host (listCommand path isLightweight)) as [releaseTags|];
    [|discriminate].
  rewrite ExtractionFacts.bind_value, ExtractionFacts.outcome_pair.
  destruct (truthy_arg endDateString); [|discriminate].
  cbn [negb]. intros H. repeat split. exists releaseTags. auto.
Qed.

(** The reference repository with three releases. *)
Lemma execute_summary_witness :
  let h := Reference.host Reference.releases in
  truthy_arg (Some "/repo") = true /\
  truthy (Date_parse h (ToString (Some "2023-01-06T00:00:00Z"))) = true /\
  truthy_arg (Some "2023-01-26T00:00:00Z") = true /\
  exists releaseTags,
    exec h (listCommand (Some "/repo") false) = Some releaseTags /\
    outcome (calculateCycleTime h (ToString (Some "/repo")) releaseTags
               (Date_parse h (ToString (Some "2023-01-06T00:00:00Z")))
               (Date_parse h (ToString (Some "2023-01-26T00:00:00Z")))
               (Some "v"))
    = inr {| cycleTime := ofZ 24; numberOfReleases := 2 |}.
Proof.
  apply (execute_summary (Reference.host Reference.releases)
           (Some "2023-01-06T00:00:00Z") (Some "2023-01-26T00:00:00Z")
           (Some "v") false (Some "/repo")
           {| cycleTime := ofZ 24; numberOfReleases := 2 |}).
  vm_compute. reflexivity.
Defined.

(** X18.  A line made of a name without a space, a space and a date string
    parses to the record of that name; [Date.parse] is given the date
    string with the space before it. *)
Theorem tag_line_round_trip (host : Host) (name dateString : string) :
  contains_char SP name = false ->
  parseTagLine host (name ++ String SP dateString)
  = Some {| tag := name; date := Date_parse host (String SP dateString) |}.
Proof.
  intros Hname. unfold parseTagLine.
  rewrite StringFacts.split_first by exact Hname. cbn [hd].
  rewrite EdgeFacts.substring_from_app.
  destruct name; reflexivity.
Qed.

Lemma tag_line_round_trip_witness :
  parseTagLine (Reference.host []) ("v1.0" ++ String SP "2023-01-01T00:00:00Z")
  = Some {| tag := "v1.0";
            date := Date_parse (Reference.host [])
                      (String SP "2023-01-01T00:00:00Z") |}.
Proof.
  apply (tag_line_round_trip (Reference.host []) "v1.0"
           "2023-01-01T00:00:00Z").
  reflexivity.
Defined.

(** X19.  [zip] of two arrays has as many rows as the longer one; row [i]
    holds element [i] of each array, [undefined] past the end of the
    shorter; no row is [undefined] on both sides. *)
Theorem zip_rows {A B : Type} (a : list A) (b : list B) :
  List.length (zip a b) = Nat.max (List.length b) (List.length a) /\
  (forall i,
      nth_error (zip a b) i =
      if (i <? Nat.max (List.length b) (List.length a))%nat
      then Some (nth_error a i, nth_error b i)
      else None) /\
  Forall (fun row => fst row <> None \/ snd row <> None) (zip a b).
Proof.
  split; [unfold zip; now rewrite length_map, length_seq|].
  split; [apply EdgeFacts.nth_error_zip|].
  apply Forall_forall. intros row Hin.
  apply In_nth_error in Hin as [i Hi].
  rewrite EdgeFacts.nth_error_zip in Hi.
  destruct (i <? Nat.max (List.length b) (List.length a))%nat eqn:Hlt;
    [|discriminate].
  injection Hi as <-. cbn [fst snd]. apply Nat.ltb_lt in Hlt.
  destruct (Nat.lt_ge_cases i (List.length a)) as [Ha|Ha].
  - left. now apply nth_error_Some.
  - right. apply nth_error_Some. lia.
Qed.

(** X20.  A line of the diff that begins with [+] and holds no space names
    no commit: the extractor then asks for the timestamp of the commit
    called [undefined]. *)
Theorem kept_line_without_commit (host : Host) (path cherryCommit : string) :
  contains_char SP cherryCommit = false ->
  cherrySha cherryCommit = None /\
  commands (getCommitTime host path (cherrySha cherryCommit))
  = ["cd " ++ path ++ " && git log -n 1 --format=format:%cI undefined"].
Proof.
  intros H. unfold cherrySha. rewrite (StringFacts.split_none _ _ H).
  split; [reflexivity|].
  cbn [nth_error]. now rewrite FailureFacts.getCommitTime_eq.
Qed.

Lemma kept_line_without_commit_witness :
  cherrySha "+1a2b3c4" = None /\
  commands (getCommitTime (Reference.host Reference.repo) "/repo"
              (cherrySha "+1a2b3c4"))
  = ["cd " ++ "/repo" ++ " && git log -n 1 --format=format:%cI undefined"].
Proof.
  apply (kept_line_without_commit (Reference.host Reference.repo) "/repo"
           "+1a2b3c4").
  reflexivity.
Defined.

(** X21.  Every pair a run counts is made of two selected releases: both
    have a name the pattern accepts and neither is dated after the end
    date, and the later one is not dated before the start date. *)
Theorem counted_pairs_are_in_window (host : Host) (path tagsData : string)
    (startDate endDate : number) (regexp : arg) (result : CycleTimeResult) :
  outcome (calculateCycleTime host path tagsData startDate endDate regexp)
  = inr result ->
  exists releases,
    outcome (selectReleases host endDate regexp (split LF tagsData) [])
    = inr releases /\
    numberOfReleases result
    = List.length (filter (inPeriod startDate) (releasePairs releases)) /\
    Forall (fun release =>
              exists earlier later,
                release = (Some earlier, Some later) /\
                keptBy endDate (matcher host regexp) earlier = true /\
                keptBy endDate (matcher host regexp) later = true /\
                lt (date later) startDate = false)
      (filter (inPeriod startDate) (releasePairs releases)).
Proof.
  intros (releases & perPair & Hsel & _ & _ & Hcount)
    %ReportFacts.calculateCycleTime_returns.
  exists releases. split; [exact Hsel|]. split; [exact Hcount|].
  pose proof (LoopFacts.selectReleases_outcome _ _ _ _ _ _ Hsel) as Hfilter.
  cbn [app] in Hfilter.
  assert (Hkept : forall r, In r releases ->
                            keptBy endDate (matcher host regexp) r = true).
  { intros r Hr. rewrite Hfilter in Hr. now apply filter_In in Hr. }
  apply Forall_forall. intros release [Hin Hper]%filter_In.
  apply In_nth_error in Hin as [i Hi].
  rewrite PairFacts.nth_error_releasePairs in Hi.
  destruct (i <? List.length releases)%nat; [|discriminate].
  assert (Hrel : release = (nth_error releases i, nth_error releases (S i)))
    by congruence.
  clear Hi. subst release. unfold inPeriod in Hper. cbn [snd] in Hper.
  destruct (nth_error releases (S i)) as [later|] eqn:Hl;
    [|discriminate Hper].
  destruct (nth_error releases i) as [earlier|] eqn:He.
  - exists earlier, later. repeat split.
    + apply Hkept. eapply nth_error_In; eassumption.
    + apply Hkept. eapply nth_error_In; eassumption.
    + now apply negb_true_iff.
  - apply nth_error_None in He.
    assert (nth_error releases (S i) <> None) by congruence.
    apply nth_error_Some in H. lia.
Qed.

Lemma counted_pairs_are_in_window_witness :
  let h := Reference.host Reference.releases in
  let tagsData := Reference.unlines ["v1 2023-01-01T00:00:00Z";
                                     "v2 2023-01-11T00:00:00Z";
                                     "v3 2023-01-21T00:00:00Z"] in
  let result := {| cycleTime := ofZ 24; numberOfReleases := 2 |} in
  exists releases,
    outcome (selectReleases h (ofZ 1674691200000) (Some "v")
               (split LF tagsData) [])
    = inr releases /\
    numberOfReleases result
    = List.length (filter (inPeriod (ofZ 1672963200000))
                     (releasePairs releases)) /\
    Forall (fun release =>
              exists earlier later,
                release = (Some earlier, Some later) /\
                keptBy (ofZ 1674691200000) (matcher h (Some "v")) earlier
                = true /\
                keptBy (ofZ 1674691200000) (matcher h (Some "v")) later
                = true /\
                lt (date later) (ofZ 1672963200000) = false)
      (filter (inPeriod (ofZ 1672963200000)) (releasePairs releases)).
Proof.
  apply (counted_pairs_are_in_window (Reference.host Reference.releases)
           "/repo"
           (Reference.unlines ["v1 2023-01-01T00:00:00Z";
                               "v2 2023-01-11T00:00:00Z";
                               "v3 2023-01-21T00:00:00Z"])
           (ofZ 1672963200000) (ofZ 1674691200000) (Some "v")
           {| cycleTime := ofZ 24; numberOfReleases := 2 |}).
  vm_compute. reflexivity.
Defined.

(* ================================================================== *)
(** ** The pairer and the extractor inside the pipeline *)

Module PipelineFacts.

Import MFacts.

Lemma append_assoc (a b c : string) : ((a ++ b) ++ c = a ++ (b ++ c))%string.
Proof. induction a as [|x a IH]; cbn; [reflexivity|]. now rewrite IH. Qed.

(** A run of characters that are not white space goes to the current
    token. *)
Lemma tokensFrom_word (word rest current : string) :
  noWhitespace word = true ->
  tokensFrom (word ++ rest) current = tokensFrom rest (current ++ word).
Proof.
  revert current. induction word as [|c word IH]; intros current; cbn.
  - intros _. now rewrite StringFacts.append_empty_r.
  - intros [Hc Hw]%andb_true_iff. apply negb_true_iff in Hc. rewrite Hc.
    rewrite (IH _ Hw), append_assoc. reflexivity.
Qed.

Lemma noWhitespace_no_space (s : string) :
  noWhitespace s = true -> contains_char SP s = false.
Proof.
  induction s as [|c s IH]; [reflexivity|]. cbn.
  intros [Hc Hs]%andb_true_iff. rewrite (IH Hs), orb_false_r.
  destruct (Ascii.eqb c SP) eqn:E; [|reflexivity].
  apply Ascii.eqb_eq in E. subst c. discriminate.
Qed.

(** The second of three pieces separated by single spaces. *)
Lemma cherrySha_second (first second rest : string) :
  contains_char SP first = false -> contains_char SP second = false ->
  rest = EmptyString \/ (exists r, rest = String SP r) ->
  cherrySha (first ++ String SP (second ++ rest)) = Some second.
Proof.
  intros Hf Hs Hrest. unfold cherrySha.
  rewrite StringFacts.split_first by exact Hf. cbn [nth_error].
  destruct Hrest as [->|[r ->]].
  - rewrite StringFacts.append_empty_r. now rewrite StringFacts.split_none.
  - now rewrite StringFacts.split_first.
Qed.

(** On a line [+ <sha>] or [+ <sha> <rest>] the second field is the second
    token. *)
Lemma secondToken_plus_line (sha rest : string) :
  sha <> EmptyString -> noWhitespace sha = true ->
  rest = EmptyString \/ (exists r, rest = String SP r) ->
  secondToken ("+ " ++ sha ++ rest) = Some sha.
Proof.
  intros Hne Hw Hrest. unfold secondToken, whitespaceTokens.
  change ("+ " ++ sha ++ rest)%string
    with (String "+" (String SP (sha ++ rest))).
  cbn [tokensFrom isWhitespace]. cbn [nat_of_ascii].
  change (tokensFrom (String SP (sha ++ rest)) (EmptyString ++ "+"))
    with ("+" :: tokensFrom (sha ++ rest) EmptyString).
  rewrite (tokensFrom_word _ _ _ Hw). cbn [append nth_error].
  destruct sha as [|c sha]; [contradiction|].
  destruct Hrest as [->|[r ->]]; reflexivity.
Qed.

(** The pairs of a list that ends with [lastRelease]: the last of them has
    no later release. *)
Lemma releasePairs_snoc (init : list TagRecord) (lastRelease : TagRecord) :
  releasePairs (init ++ [lastRelease]) =
  (removelast (releasePairs (init ++ [lastRelease]))
   ++ [(Some lastRelease, None)])%list.
Proof.
  assert (E : releasePairs (init ++ [lastRelease]) =
              (map (fun i => (nth_error (init ++ [lastRelease]) i,
                              nth_error (slice1 (init ++ [lastRelease])) i))
                 (seq 0 (List.length init))
               ++ [(Some lastRelease, None)])%list).
  { unfold releasePairs, zip.
    rewrite PairFacts.length_slice1, length_app. cbn [List.length].
    replace (Nat.max (List.length init + 1 - 1) (List.length init + 1))
      with (List.length init + 1)%nat by lia.
    rewrite seq_app, map_app. cbn [seq map Nat.add]. f_equal.
    rewrite PairFacts.nth_error_slice1.
    rewrite (nth_error_app2 init [lastRelease] (n := List.length init))
      by lia.
    rewrite (nth_error_app2 init [lastRelease] (n := S (List.length init)))
      by lia.
    rewrite Nat.sub_diag.
    replace (S (List.length init) - List.length init)%nat with 1%nat by lia.
    reflexivity. }
  rewrite E at 2. rewrite removelast_last. exact E.
Qed.

Lemma filter_releasePairs_removelast (startDate : number)
    (releases : list TagRecord) :
  filter (inPeriod startDate) (releasePairs releases)
  = filter (inPeriod startDate) (removelast (releasePairs releases)).
Proof.
  destruct releases as [|r releases] using rev_ind; [reflexivity|].
  rewrite releasePairs_snoc at 1. rewrite filter_app. cbn. apply app_nil_r.
Qed.

Section WithHost.

Variable host : Host.

(** A pair that the window filter drops at the end of the list changes
    nothing. *)
Lemma releaseLoop_snoc_dropped (path : string) (startDate : number)
    (pairs : list (option TagRecord * option TagRecord))
    (release : option TagRecord * option TagRecord)
    (durationsData : list number) (n : nat) :
  inPeriod startDate release = false ->
  releaseLoop host path startDate (pairs ++ [release]) durationsData n
  = releaseLoop host path startDate pairs durationsData n.
Proof.
  intros Hout. revert durationsData n.
  induction pairs as [|p pairs IH]; intros durationsData n;
    cbn [app releaseLoop].
  - now rewrite Hout.
  - destruct (negb (inPeriod startDate p)); [apply IH|].
    destruct p as [[oldRelease|] [currentRelease|]]; try reflexivity.
    destruct (getDurationsForRelease host path (tag oldRelease)
                (tag currentRelease) (date currentRelease)) as [t [e|ds]];
      unfold bind; rewrite ?IH; reflexivity.
Qed.

Lemma releaseLoop_removelast (path : string) (startDate : number)
    (releases : list TagRecord) (durationsData : list number) (n : nat) :
  releaseLoop host path startDate (releasePairs releases) durationsData n
  = releaseLoop host path startDate (removelast (releasePairs releases))
      durationsData n.
Proof.
  destruct releases as [|r releases] using rev_ind; [reflexivity|].
  rewrite releasePairs_snoc at 1. now apply releaseLoop_snoc_dropped.
Qed.

(** A run that returns counted the pairs in the period and ran their
    extractions, in their order. *)
Lemma calculateCycleTime_pairs (path tagsData : string)
    (startDate endDate : number) (regexp : arg) (result : CycleTimeResult) :
  outcome (calculateCycleTime host path tagsData startDate endDate regexp)
  = inr result ->
  exists releases,
    outcome (selectReleases host endDate regexp (split LF tagsData) [])
    = inr releases /\
    numberOfReleases result
    = List.length (filter (inPeriod startDate) (releasePairs releases)) /\
    commands (calculateCycleTime host path tagsData startDate endDate regexp)
    = flat_map (fun release => commands (extraction host path release))
        (filter (inPeriod startDate) (releasePairs releases)).
Proof.
  unfold calculateCycleTime.
  rewrite outcome_bind, commands_bind, LoopFacts.selectReleases_commands.
  destruct (outcome (selectReleases host endDate regexp (split LF tagsData) []))
    as [e|releases]; [discriminate|].
  fold (releasePairs releases). rewrite outcome_bind, commands_bind.
  destruct (outcome (releaseLoop host path startDate (releasePairs releases)
                       [] 0)) as [e|totals] eqn:Hloop; [discriminate|].
  unfold outcome at 1, ret. cbn [snd]. intros [= <-].
  exists releases. cbn [numberOfReleases commands fst app].
  rewrite (LoopFacts.releaseLoop_count _ _ _ _ _ _ _ Hloop).
  rewrite (LoopFacts.releaseLoop_commands _ _ _ _ _ _ _ Hloop).
  now rewrite app_nil_r.
Qed.

End WithHost.

Lemma Forall2_impl_In {A B} (R R' : A -> B -> Prop) (l : list A)
    (l' : list B) :
  (forall a b, In a l -> R a b -> R' a b) ->
  Forall2 R l l' -> Forall2 R' l l'.
Proof.
  intros H HF. induction HF as [|a b l l' Hab Hrest IH]; constructor.
  - apply H; [now left|exact Hab].
  - apply IH. intros a' b' Hin. apply H. now right.
Qed.

(** A pair in the period has both its releases. *)
Lemma pair_in_period (startDate : number) (releases : list TagRecord)
    (release : option TagRecord * option TagRecord) :
  In release (filter (inPeriod startDate) (releasePairs releases)) ->
  exists earlier later, release = (Some earlier, Some later).
Proof.
  intros [Hin Hper]%filter_In.
  pose proof (FailureFacts.releasePairs_earlier_present releases) as Hall.
  rewrite Forall_forall in Hall. specialize (Hall release Hin).
  destruct release as [[earlier|] [later|]]; try discriminate; eauto.
  now destruct Hall.
Qed.

End PipelineFacts.

(** C7.  For [N] selected releases the pairer gives [N] pairs, pair [i]
    being element [i] with element [i+1]; the last pair has no later release
    and the window filter drops it.  The release loop of the pipeline runs
    on these pairs and does the same with and without the last of them; a
    run that returns has paired the releases it selected: it counts the
    pairs in the period among all pairs but the last, and the commands it
    ran are the extractions of these pairs, in their order. *)
Theorem pairer_pairs_consecutive (releases : list TagRecord) (startDate : number) :
  List.length (releasePairs releases) = List.length releases /\
  (forall i,
      nth_error (releasePairs releases) i =
      if (i <? List.length releases)%nat
      then Some (nth_error releases i, nth_error releases (S i))
      else None) /\
  (forall init lastRelease,
      releases = (init ++ [lastRelease])%list ->
      nth_error (releasePairs releases) (List.length init)
      = Some (Some lastRelease, None) /\
      inPeriod startDate (Some lastRelease, None) = false) /\
  (forall host path durationsData n,
      releaseLoop host path startDate (releasePairs releases) durationsData n
      = releaseLoop host path startDate (removelast (releasePairs releases))
          durationsData n) /\
  (forall host path tagsData endDate regexp result,
      outcome (calculateCycleTime host path tagsData startDate endDate regexp)
      = inr result ->
      exists selected,
        outcome (selectReleases host endDate regexp (split LF tagsData) [])
        = inr selected /\
        numberOfReleases result
        = List.length (filter (inPeriod startDate)
                         (removelast (releasePairs selected))) /\
        (numberOfReleases result <= List.length selected - 1)%nat /\
        commands (calculateCycleTime host path tagsData startDate endDate
                    regexp)
        = flat_map (fun release => commands (extraction host path release))
            (filter (inPeriod startDate)
               (removelast (releasePairs selected)))).
Proof.
  split; [apply PairFacts.length_releasePairs|].
  split; [apply PairFacts.nth_error_releasePairs|].
  split; [|split].
  - intros init lastRelease ->. split; [|reflexivity].
    rewrite PairFacts.nth_error_releasePairs, length_app. cbn [List.length].
    replace (List.length init <? List.length init + 1)%nat with true
      by (symmetry; apply Nat.ltb_lt; lia).
    rewrite (nth_error_app2 init [lastRelease] (n := List.length init)) by lia.
    rewrite (nth_error_app2 init [lastRelease] (n := S (List.length init)))
      by lia.
    rewrite Nat.sub_diag.
    replace (S (List.length init) - List.length init)%nat with 1%nat by lia.
    reflexivity.
  - intros host path durationsData n.
    apply PipelineFacts.releaseLoop_removelast.
  - intros host path tagsData endDate regexp result
      (selected & Hsel & Hcount & Hcmds)%PipelineFacts.calculateCycleTime_pairs.
    exists selected.
    rewrite <- PipelineFacts.filter_releasePairs_removelast.
    repeat split; try assumption.
    rewrite Hcount. apply ReportFacts.inPeriod_count.
Qed.

(** C2, as stated, fails: the commit taken from a kept line is not its
    second token when the fields are not separated by single spaces.  With
    two spaces after the [+] the second token is the commit but the code
    takes the empty string, and asks for the timestamp of no commit in
    particular (the last commit of the repository answers); with a tab it
    takes [undefined]. *)
Lemma second_token_is_not_the_commit :
  let h := Reference.host Reference.spaced in
  let cherryCommit := "+  1a2b3c4" in
  let tabbed := "+" ++ String TAB "1a2b3c4" in
  startsWith "+" cherryCommit = true /\
  secondToken cherryCommit = Some "1a2b3c4" /\
  cherrySha cherryCommit = Some EmptyString /\
  startsWith "+" tabbed = true /\
  secondToken tabbed = Some "1a2b3c4" /\
  cherrySha tabbed = None /\
  getDurationsForRelease h "/repo" "v1" "v2" (ofZ 1673308800000)
  = ([ "cd /repo && git cherry v1 v2";
       "cd /repo && git log -n 1 --format=format:%cI " ],
     inr [ofZ 432000000]) /\
  abs (sub (ofZ 1673308800000) (Date_parse h "2022-12-31T00:00:00Z"))
  = ofZ 864000000.
Proof. vm_compute. repeat split. Qed.

(** C2, amended.  For a pair in the period, when the diff and the timestamp
    of each kept commit are obtained, the extractor returns, in the order of
    the lines of the diff that begin with [+], the durations
    [|later.timestamp - commitTimestamp|].  The commit of a kept line is
    the piece between its first and its second space: nothing when the line
    has no space, and the second token of the line when the line is
    [+ <sha>] or [+ <sha> <rest>] with single spaces.  The duration is the
    magnitude of the difference: for timestamps that are whole numbers of
    milliseconds it is the integer [|a - b|].  In a run of the pipeline that
    returns, the durations of every pair in the period are these, with the
    timestamp of the later release of the pair, and the cycle time is their
    mean in hours. *)
Theorem extractor_durations (host : Host) (path upstream head : string)
    (releaseDate : number) (commitsDiff : string) (stamps : list number) :
  outcome (getCherryForRelease host path upstream head) = inr commitsDiff ->
  Forall2 (fun cherryCommit t =>
             outcome (getCommitTime host path (cherrySha cherryCommit)) = inr t)
    (filter (startsWith "+") (split LF commitsDiff)) stamps ->
  outcome (getDurationsForRelease host path upstream head releaseDate)
  = inr (map (fun t => abs (sub releaseDate t)) stamps) /\
  (forall cherryCommit,
      contains_char SP cherryCommit = false -> cherrySha cherryCommit = None) /\
  (forall first second rest,
      contains_char SP first = false -> contains_char SP second = false ->
      rest = EmptyString \/ (exists r, rest = String SP r) ->
      cherrySha (first ++ String SP (second ++ rest)) = Some second) /\
  (forall sha rest,
      sha <> EmptyString -> noWhitespace sha = true ->
      rest = EmptyString \/ (exists r, rest = String SP r) ->
      startsWith "+" ("+ " ++ sha ++ rest) = true /\
      secondToken ("+ " ++ sha ++ rest) = Some sha /\
      cherrySha ("+ " ++ sha ++ rest) = secondToken ("+ " ++ sha ++ rest)) /\
  (forall a b : Z,
      (Z.abs a < 2 ^ 53)%Z -> (Z.abs b < 2 ^ 53)%Z ->
      (Z.abs (a - b) < 2 ^ 53)%Z ->
      abs (sub (ofZ a) (ofZ b)) = ofZ (Z.abs (a - b))) /\
  (forall tagsData startDate endDate regexp result,
      outcome (calculateCycleTime host path tagsData startDate endDate regexp)
      = inr result ->
      exists releases perPair,
        outcome (selectReleases host endDate regexp (split LF tagsData) [])
        = inr releases /\
        Forall2 (fun release durations =>
                   exists earlier later pairStamps,
                     release = (Some earlier, Some later) /\
                     outcome (getDurationsForRelease host path (tag earlier)
                                (tag later) (date later)) = inr durations /\
                     durations
                     = map (fun t => abs (sub (date later) t)) pairStamps)
          (filter (inPeriod startDate) (releasePairs releases)) perPair /\
        cycleTime result = hours (mean (List.concat perPair))).
Proof.
  intros Hdiff Hstamps. repeat apply conj.
  - unfold getDurationsForRelease.
    rewrite MFacts.outcome_bind, Hdiff, MFacts.outcome_bind.
    rewrite (ExtractorFacts.commitTimes_kept _ _ _ _ _ Hstamps). reflexivity.
  - intros cherryCommit H. unfold cherrySha.
    now rewrite (StringFacts.split_none _ _ H).
  - apply PipelineFacts.cherrySha_second.
  - intros sha rest Hne Hw Hrest.
    rewrite (PipelineFacts.secondToken_plus_line sha rest Hne Hw Hrest).
    split; [reflexivity|]. split; [reflexivity|].
    change ("+ " ++ sha ++ rest)%string with ("+" ++ String SP (sha ++ rest)).
    apply PipelineFacts.cherrySha_second;
      [reflexivity|now apply PipelineFacts.noWhitespace_no_space|exact Hrest].
  - intros a b Ha Hb Hd. rewrite SignedFacts.sub_ofZ by assumption.
    now apply SignedFacts.abs_ofZ.
  - intros tagsData startDate endDate regexp result
      (releases & perPair & Hsel & Hall & Hmean & _)
      %ReportFacts.calculateCycleTime_returns.
    exists releases, perPair. split; [exact Hsel|]. split; [|exact Hmean].
    eapply PipelineFacts.Forall2_impl_In; [|exact Hall].
    cbn beta. intros release durations Hin Hout.
    destruct (PipelineFacts.pair_in_period _ _ _ Hin)
      as (earlier & later & ->).
    cbn [extraction] in Hout.
    destruct (ReportFacts.extraction_shape _ _ _ _ _ _ Hout)
      as [pairStamps ->].
    exists earlier, later, pairStamps. auto.
Qed.

(** The pair ([v2], [v3]) of the reference repository: one line of the diff
    begins with [+], and its commit is a day older than [v3]. *)
Lemma extractor_durations_witness :
  outcome (getDurationsForRelease (Reference.host Reference.repo) "/repo"
             "v2" "v3" (ofZ 1674259200000))
  = inr (map (fun t => abs (sub (ofZ 1674259200000) t)) [ofZ 1674172800000]).
Proof.
  refine (proj1 (extractor_durations (Reference.host Reference.repo) "/repo"
                   "v2" "v3" (ofZ 1674259200000)
                   (Reference.unlines ["- 0f0f0f0"; "+ 5d6e7f8"])
                   [ofZ 1674172800000] _ _)).
  - vm_compute. reflexivity.
  - match goal with
    | |- Forall2 ?P ?kept ?stamps =>
        let kept' := eval vm_compute in kept in change (Forall2 P kept' stamps)
    end.
    constructor; [vm_compute; reflexivity|constructor].
Defined.
